(** * QuestionService: the question generation and selection engine

    A shallow embedding of the service module of the Finance-IT feed
    (the file holding [MCQ_POOL], [NUMERIC_TEMPLATES], [getNextQuestion]
    and [getQuestionBatch]) together with the record types of
    [types/questions.ts].

    Conventions of the embedding:
    - a JavaScript [number] that holds an integer by construction (a
      [randInt] result, an array index, a loop counter, a clock reading)
      is a [Z]; every other [number] is an exact rational [Q], so [+],
      [*], [/] and [Math.pow] carry no binary64 rounding error;
    - module [Binary64] has the arithmetic of the generators once more,
      in IEEE 754 double precision as the engine runs it, for the
      statements about concrete values; [Math.pow], which ECMAScript
      leaves implementation-approximated, is a parameter there;
    - [Math.random] and [Date.now] read two oracles of the host, one
      value per call, through cursors kept in the store; the threshold
      [0.6] of the category draw is the rational [6 / 10];
    - the module variable [lastQuestionId] is a field of the store;
    - a [do ... while] loop takes a retry budget; a run that exhausts it
      is reported as [Diverges], never as a value;
    - the callers of the service (the home feed, the numeric and the
      multiple-choice card) and the level editor of the account screen
      are embedded as state records with one function per handler; a
      string typed by the user is a sequence of code units below 256,
      and [toLocaleString] is that of the [en-US] locale. *)

From Stdlib Require Import ZArith QArith Qround Qpower Qabs.
From Stdlib Require Import String Ascii List Bool Lia Lqa.
From Stdlib Require Import DecimalString DecimalPos DecimalZ.
From Stdlib Require Import Floats.
Import ListNotations.

Local Open Scope string_scope.

(** ** Outcomes and the effect monad *)

Inductive Outcome (A : Type) : Type :=
| Returns (a : A)
| Throws (err : string)
| Diverges.

Arguments Returns {A} a.
Arguments Throws {A} err.
Arguments Diverges {A}.

(** What the runtime supplies: the values [Math.random()] yields, call
    after call, and the values [Date.now()] yields, call after call. *)
Record Host : Type := mkHost {
  random : nat -> Q;
  now : nat -> Z
}.

(** The mutable state of the module, and how far the oracles were read. *)
Record Store : Type := mkStore {
  lastQuestionId : option string;
  randomCalls : nat;
  clockCalls : nat
}.

Definition M (A : Type) : Type := Host -> Store -> Outcome (A * Store).

(** The store after one more call of [Math.random]. *)
Definition drew (s : Store) : Store :=
  mkStore (lastQuestionId s) (S (randomCalls s)) (clockCalls s).

Definition ret {A} (a : A) : M A := fun _ s => Returns (a, s).

Definition bind {A B} (m : M A) (k : A -> M B) : M B :=
  fun h s =>
    match m h s with
    | Returns (a, s') => k a h s'
    | Throws e => Throws e
    | Diverges => Diverges
    end.

Notation "x <- m ;; k" := (bind m (fun x => k))
  (at level 61, m at next level, right associativity).
Notation "m ;;; k" := (bind m (fun _ => k))
  (at level 61, right associativity).

Definition throw {A} (e : string) : M A := fun _ _ => Throws e.
Definition diverge {A} : M A := fun _ _ => Diverges.

Definition Math_random : M Q :=
  fun h s =>
    Returns (random h (randomCalls s), drew s).

Definition Date_now : M Z :=
  fun h s =>
    Returns (now h (clockCalls s),
             mkStore (lastQuestionId s) (randomCalls s) (S (clockCalls s))).

Definition readLast : M (option string) :=
  fun _ s => Returns (lastQuestionId s, s).

Definition writeLast (v : string) : M unit :=
  fun _ s => Returns (tt, mkStore (Some v) (randomCalls s) (clockCalls s)).

(** ** Numbers and their rendering *)

(** [Math.round]: the nearest integer, a tie going up. *)
Definition Math_round (x : Q) : Z := Qfloor (x + (1 # 2)).

(** [Math.floor(Math.random() * (max - min + 1)) + min] *)
Definition randInt (min max : Z) : M Z :=
  u <- Math_random ;;
  ret (Qfloor (u * inject_Z (max - min + 1)) + min)%Z.

(** [Math.round(n * 100) / 100] *)
Definition round2 (n : Q) : Q :=
  (inject_Z (Math_round (n * 100)) / 100)%Q.

(** An integer inside a template literal: its decimal digits. *)
Definition toString (n : Z) : string := NilZero.string_of_int (Z.to_int n).

(** [Number.prototype.toLocaleString] on an integer, for the [en-US]
    locale: decimal digits in groups of three, separated by commas. *)
Fixpoint groupDigits (rev_digits : list ascii) (filled : nat) : list ascii :=
  match rev_digits with
  | [] => []
  | d :: rest =>
      if Nat.eqb filled 3
      then ","%char :: d :: groupDigits rest 1
      else d :: groupDigits rest (S filled)
  end.

Definition toLocaleString (n : Z) : string :=
  let digits := list_ascii_of_string (toString (Z.abs n)) in
  let grouped := string_of_list_ascii (rev (groupDigits (rev digits) 0)) in
  if (n <? 0)%Z then "-" ++ grouped else grouped.

(** ** The record types of [types/questions.ts] *)

Module MCQQuestion.
Record t : Type := mk {
  id : string;
  question : string;
  options : list string;
  correctIndex : Z
}.
End MCQQuestion.

Module GeneratedQuestionResult.
(** [tolerance?: number] is an optional field. *)
Record t : Type := mk {
  questionText : string;
  correctAnswer : Q;
  tolerance : option Q
}.
End GeneratedQuestionResult.

Module GeneratedQuestionTemplate.
Record t : Type := mk {
  id : string;
  template : string;
  generator : M GeneratedQuestionResult.t
}.
End GeneratedQuestionTemplate.

(** The second arm of [ResolvedQuestion]; its [tolerance] is required. *)
Module NumericQuestion.
Record t : Type := mk {
  id : string;
  questionText : string;
  correctAnswer : Q;
  tolerance : Q
}.
End NumericQuestion.

Inductive ResolvedQuestion : Type :=
| Mcq (q : MCQQuestion.t)
| Numeric (q : NumericQuestion.t).

(** The [type] discriminator field. *)
Definition type (q : ResolvedQuestion) : string :=
  match q with
  | Mcq _ => "mcq"
  | Numeric _ => "numeric"
  end.

(** [a[i]]: [undefined] outside the array. *)
Definition at_index {A} (a : list A) (i : Z) : option A :=
  if (i <? 0)%Z then None else nth_error a (Z.to_nat i).

(** [id === lastQuestionId], the right-hand side being [string | null]. *)
Definition same_id (id : string) (last : option string) : bool :=
  match last with
  | Some l => String.eqb id l
  | None => false
  end.

(** ** The static pool *)

Definition dq : string := String (ascii_of_nat 34) EmptyString.

Definition MCQ_POOL : list MCQQuestion.t := [
  MCQQuestion.mk "mcq-1"
    "If interest rates rise, what typically happens to bond prices?"
    ["They increase"; "They decrease"; "They stay the same";
     "They become volatile"] 1;
  MCQQuestion.mk "mcq-2"
    ("What does " ++ dq ++ "diversification" ++ dq
       ++ " primarily help reduce?")
    ["Tax liability"; "Unsystematic risk"; "Inflation";
     "Transaction costs"] 1;
  MCQQuestion.mk "mcq-3"
    "Which financial statement shows a company's revenues and expenses?"
    ["Balance Sheet"; "Cash Flow Statement"; "Income Statement";
     "Statement of Equity"] 2;
  MCQQuestion.mk "mcq-4"
    ("What is the " ++ dq ++ "Rule of 72" ++ dq ++ " used to estimate?")
    ["Time to double an investment"; "Maximum portfolio loss";
     "Optimal asset allocation"; "Tax deductions"] 0;
  MCQQuestion.mk "mcq-5"
    "A P/E ratio compares a stock's price to its:"
    ["Revenue"; "Earnings per share"; "Dividends"; "Book value"] 1;
  MCQQuestion.mk "mcq-6"
    "Which type of fund typically has the lowest management fees?"
    ["Hedge fund"; "Mutual fund"; "Index fund"; "Private equity fund"] 2;
  MCQQuestion.mk "mcq-7"
    "What does GDP stand for?"
    ["Gross Domestic Product"; "General Domestic Pricing";
     "Growth Demand Percentage"; "Gross Demand Profit"] 0;
  MCQQuestion.mk "mcq-8"
    ("What is a " ++ dq ++ "bear market" ++ dq ++ "?")
    ["A market rising by 20% or more"; "A market declining by 20% or more";
     "A market with high volatility"; "A market with low trading volume"] 1;
  MCQQuestion.mk "mcq-9"
    "Which asset is generally considered the safest?"
    ["Corporate bonds"; "Stocks"; "U.S. Treasury bills";
     "Cryptocurrency"] 2;
  MCQQuestion.mk "mcq-10"
    "Compound interest differs from simple interest because it:"
    ["Uses a lower rate"; "Is calculated only annually";
     "Earns interest on accumulated interest";
     "Applies only to savings accounts"] 2;
  MCQQuestion.mk "mcq-11"
    "What does an ETF stand for?"
    ["Electronic Transfer Fund"; "Exchange-Traded Fund";
     "Equity Trust Fund"; "Estimated Tax Filing"] 1;
  MCQQuestion.mk "mcq-12"
    "Inflation causes the purchasing power of money to:"
    ["Increase"; "Decrease"; "Remain unchanged"; "Fluctuate randomly"] 1
].

(** ** The numeric templates

    Each generator draws its parameters and then builds its result from
    them; the part after the draws is a function of the drawn constants
    and is named after the template. *)

Module Gen := GeneratedQuestionResult.

Definition compoundInterest (principal rate years : Z) : Gen.t :=
  let answer :=
    round2 (inject_Z principal * (1 + inject_Z rate / 100) ^ years) in
  Gen.mk
    ("You invest $" ++ toLocaleString principal ++ " at " ++ toString rate
       ++ "% annual compound interest. How much will you have after "
       ++ toString years ++ " year"
       ++ (if (years >? 1)%Z then "s" else "") ++ "?")
    answer
    (Some (answer * (1 # 100))).

Definition simpleInterest (principal rate years : Z) : Gen.t :=
  let interest :=
    round2 (inject_Z principal * (inject_Z rate / 100) * inject_Z years) in
  let total := inject_Z principal + interest in
  Gen.mk
    ("You deposit $" ++ toLocaleString principal
       ++ " in an account earning " ++ toString rate
       ++ "% simple interest per year. What is the total amount after "
       ++ toString years ++ " year"
       ++ (if (years >? 1)%Z then "s" else "") ++ "?")
    total
    (Some (total * (1 # 100))).

Definition ruleOf72 (rate : Z) : Gen.t :=
  let answer := round2 (72 / inject_Z rate) in
  Gen.mk
    ("Using the Rule of 72, approximately how many years will it take to "
       ++ "double your money at a " ++ toString rate
       ++ "% annual return? (Round to the nearest whole number)")
    (inject_Z (Math_round answer))
    (Some 1).

Definition futureValueAnnuity (monthly rate years : Z) : Gen.t :=
  let r := inject_Z rate / 100 / 12 in
  let n := (years * 12)%Z in
  let fv := round2 (inject_Z monthly * (((1 + r) ^ n - 1) / r)) in
  Gen.mk
    ("You save $" ++ toString monthly ++ " per month for " ++ toString years
       ++ " years at " ++ toString rate
       ++ "% annual interest (compounded monthly). "
       ++ "What is the total future value?")
    fv
    (Some (fv * (1 # 100))).

Definition compoundInterestGenerator : M Gen.t :=
  k <- randInt 1 50 ;;
  let principal := (k * 1000)%Z in
  rate <- randInt 2 12 ;;
  years <- randInt 1 10 ;;
  ret (compoundInterest principal rate years).

Definition simpleInterestGenerator : M Gen.t :=
  k <- randInt 1 20 ;;
  let principal := (k * 1000)%Z in
  rate <- randInt 3 10 ;;
  years <- randInt 1 5 ;;
  ret (simpleInterest principal rate years).

Definition ruleOf72Generator : M Gen.t :=
  rate <- randInt 2 12 ;;
  ret (ruleOf72 rate).

Definition futureValueAnnuityGenerator : M Gen.t :=
  k <- randInt 1 10 ;;
  let monthly := (k * 100)%Z in
  rate <- randInt 4 10 ;;
  years <- randInt 2 10 ;;
  ret (futureValueAnnuity monthly rate years).

Definition NUMERIC_TEMPLATES : list GeneratedQuestionTemplate.t := [
  GeneratedQuestionTemplate.mk "num-compound-interest"
    "Compound interest calculation" compoundInterestGenerator;
  GeneratedQuestionTemplate.mk "num-simple-interest"
    "Simple interest calculation" simpleInterestGenerator;
  GeneratedQuestionTemplate.mk "num-rule-of-72"
    "Rule of 72 estimation" ruleOf72Generator;
  GeneratedQuestionTemplate.mk "num-future-value-annuity"
    "Future value of monthly savings" futureValueAnnuityGenerator
].

(** ** The same arithmetic in double precision *)

Module Binary64.

(** The real number a finite double stands for. *)
Definition exact (x : float) : option Q :=
  match Prim2SF x with
  | S754_zero _ => Some 0%Q
  | S754_finite s m e =>
      Some (Qred ((if s then -1 else 1) * inject_Z (Zpos m) * 2 ^ e))%Q
  | _ => None
  end.

(** The double nearest to [m * 2^e], ties to even. *)
Definition nearest (m e : Z) : float :=
  SF2Prim (binary_normalize prec emax m e false).

(** An integer as a [number]. *)
Definition ofZ (z : Z) : float := nearest z 0.

(** [Math.round]: the integer nearest to the value of [x], a tie going
    up; [-0] for a negative [x] that rounds to zero; [NaN] and the
    infinities unchanged. *)
Definition Math_round (x : float) : float :=
  match exact x with
  | Some q =>
      let z := Qfloor (q + (1 # 2)) in
      if (z =? 0)%Z && get_sign x then neg_zero else ofZ z
  | None => x
  end.

(** [Math.round(n * 100) / 100] *)
Definition round2 (n : float) : float :=
  (Math_round (n * 100) / 100)%float.

(** The double nearest to [b ^ n], for an integer [n >= 0]. *)
Definition power_nearest (b : float) (n : Z) : float :=
  match Prim2SF b with
  | S754_zero _ => if (n =? 0)%Z then one else zero
  | S754_finite s m e =>
      nearest ((if s then Zneg m else Zpos m) ^ n) (e * n)
  | _ => nan
  end.

(** A [Math.pow] that is correctly rounded on exponents that are
    non-negative integers. *)
Definition Math_pow_nearest (b y : float) : float :=
  match exact y with
  | Some q =>
      if (Zpos (Qden q) =? 1)%Z && (0 <=? Qnum q)%Z
      then power_nearest b (Qnum q)
      else nan
  | None => nan
  end.

(** [x] is [c] or one of its two neighbours among the doubles. *)
Definition within_one_ulp (x c : float) : Prop :=
  x = next_down c \/ x = c \/ x = next_up c.

Section Answers.

(** The [Math.pow] of the engine. *)
Variable pow : float -> float -> float.

(** [round2(principal * Math.pow(1 + rate / 100, years))] *)
Definition compoundAnswer (principal rate years : Z) : float :=
  round2 (ofZ principal * pow (1 + ofZ rate / 100) (ofZ years))%float.

(** [principal + round2(principal * (rate / 100) * years)] *)
Definition simpleTotal (principal rate years : Z) : float :=
  let interest :=
    round2 (ofZ principal * (ofZ rate / 100) * ofZ years)%float in
  (ofZ principal + interest)%float.

(** [Math.round(round2(72 / rate))] *)
Definition ruleOf72Answer (rate : Z) : float :=
  Math_round (round2 (72 / ofZ rate)).

(** [round2(monthly * ((Math.pow(1 + r, n) - 1) / r))] *)
Definition annuityAnswer (monthly rate years : Z) : float :=
  let r := (ofZ rate / 100 / 12)%float in
  let n := (ofZ years * 12)%float in
  round2 (ofZ monthly * ((pow (1 + r) n - 1) / r))%float.

End Answers.

End Binary64.

(** ** Assumptions on the host *)

(** [Math.random()] lies in the half-open unit interval. *)
Definition unit_interval (h : Host) : Prop :=
  forall i, (0 <= random h i)%Q /\ (random h i < 1)%Q.

(** The index [randInt(0, n - 1)] computes from the [i]-th random value. *)
Definition drawn_index (h : Host) (n : Z) (i : nat) : Z :=
  (Qfloor (random h i * inject_Z (n - 1 - 0 + 1)) + 0)%Z.

(** The index drawn over a catalog of [n] entries never settles: after
    every position of the random sequence a different index comes up. *)
Definition restless (h : Host) (n : Z) : Prop :=
  forall c, exists k, drawn_index h n (c + k) <> drawn_index h n c.

(** ** Selection *)

(** The retry loop of [getNextQuestion], which the source writes twice,
    once over [MCQ_POOL] and once over [NUMERIC_TEMPLATES]:

    [do { x = catalog[randInt(0, catalog.length - 1)]; }
     while (x.id === lastQuestionId && catalog.length > 1);] *)
Section Reroll.

Context {A : Type}.
Variable ident : A -> string.
Variable catalog : list A.

Fixpoint reroll (budget : nat) : M A :=
  match budget with
  | O => diverge
  | S budget' =>
      i <- randInt 0 (Z.of_nat (length catalog) - 1) ;;
      match at_index catalog i with
      | None => throw "TypeError: cannot read property 'id' of undefined"
      | Some x =>
          last <- readLast ;;
          if same_id (ident x) last && (1 <? length catalog)%nat
          then reroll budget'
          else ret x
      end
  end.

(** The draws get away from any identifier: after every position of
    the random sequence comes a draw whose entry is not [last]. *)
Definition escapes (h : Host) : Prop :=
  forall c (last : option string), exists k, forall x,
    at_index catalog
      (drawn_index h (Z.of_nat (length catalog)) (c + k)) = Some x ->
    same_id (ident x) last = false.

End Reroll.

(** The object literal [getNextQuestion] returns in its numeric branch. *)
Definition resolved (template : GeneratedQuestionTemplate.t)
    (generated : Gen.t) (stamp : Z) : NumericQuestion.t :=
  NumericQuestion.mk
    (GeneratedQuestionTemplate.id template ++ "-" ++ toString stamp)
    (Gen.questionText generated)
    (Gen.correctAnswer generated)
    (match Gen.tolerance generated with
     | Some t => t
     | None => Gen.correctAnswer generated * (1 # 100)
     end).

Section Selection.

(** The two catalogs the module closes over. *)
Variable pool : list MCQQuestion.t.
Variable templates : list GeneratedQuestionTemplate.t.

Definition getNextQuestion (budget : nat) : M ResolvedQuestion :=
  u <- Math_random ;;
  let isMCQ := negb (Qle_bool (6 # 10) u) in
  if isMCQ then
    question <- reroll MCQQuestion.id pool budget ;;
    writeLast (MCQQuestion.id question) ;;;
    ret (Mcq question)
  else
    template <- reroll GeneratedQuestionTemplate.id templates budget ;;
    generated <- GeneratedQuestionTemplate.generator template ;;
    writeLast (GeneratedQuestionTemplate.id template) ;;;
    stamp <- Date_now ;;
    ret (Numeric (resolved template generated stamp)).

(** [for (let i = 0; i < count; i++) questions.push(getNextQuestion());]
    [steps] bounds the iterations; [getQuestionBatch] passes enough. *)
Fixpoint pushLoop (budget steps : nat) (count i : Z)
    (questions : list ResolvedQuestion) : M (list ResolvedQuestion) :=
  if (i <? count)%Z then
    match steps with
    | O => diverge
    | S steps' =>
        q <- getNextQuestion budget ;;
        pushLoop budget steps' count (i + 1)%Z (questions ++ [q])
    end
  else ret questions.

(** [count: number = 10]: an omitted argument is [None], and the
    default fills it in. *)
Definition requested (count : option Z) : Z :=
  match count with Some c => c | None => 10%Z end.

Definition getQuestionBatch (budget : nat) (count : option Z)
    : M (list ResolvedQuestion) :=
  let count := requested count in
  pushLoop budget (Z.to_nat count) count 0 [].

(** A run of consecutive [getNextQuestion] calls: each question served,
    paired with the store that call left behind. *)
Inductive Calls (budget : nat) (h : Host)
    : Store -> list (ResolvedQuestion * Store) -> Store -> Prop :=
| Calls_done : forall s, Calls budget h s [] s
| Calls_next : forall s q s1 rest s',
    getNextQuestion budget h s = Returns (q, s1) ->
    Calls budget h s1 rest s' ->
    Calls budget h s ((q, s1) :: rest) s'.

(** The catalog entry a served question comes from, by identifier. *)
Definition source_of (q : ResolvedQuestion) (sid : string) : Prop :=
  match q with
  | Mcq m => In m pool /\ MCQQuestion.id m = sid
  | Numeric n =>
      exists t stamp,
        In t templates /\ GeneratedQuestionTemplate.id t = sid /\
        NumericQuestion.id n = sid ++ "-" ++ toString stamp
  end.

(** The size of the catalog a served question was drawn from. *)
Definition catalog_size (q : ResolvedQuestion) : nat :=
  match q with
  | Mcq _ => length pool
  | Numeric _ => length templates
  end.

(** Every generator of the catalog returns, from every store. *)
Definition generators_return (h : Host) : Prop :=
  forall t s, In t templates ->
    exists g s', GeneratedQuestionTemplate.generator t h s = Returns (g, s').

End Selection.

(** ** Sample hosts and stores *)

(** The store at process start. *)
Definition startup : Store := mkStore None 0 0.

(** A clock read several times within one millisecond, and one that
    advances by a millisecond between two readings. *)
Definition frozen_clock : nat -> Z := fun _ => 1700000000000%Z.
Definition ticking_clock : nat -> Z :=
  fun i => (1700000000000 + Z.of_nat i)%Z.

(** A host whose [Math.random()] replays [draws], then yields zero. *)
Definition replay (draws : list Q) (clock : nat -> Z) : Host :=
  mkHost (fun i => nth i draws 0%Q) clock.

(** A host whose [Math.random()] walks through the twelfths
    0, 1/12, ..., 11/12 again and again. *)
Definition twelfths : Host :=
  mkHost (fun i => (inject_Z (Z.of_nat (i mod 12)) / 12)%Q) ticking_clock.

(** Numeric, template 0, three parameter draws; numeric, template 1,
    three draws; numeric, template 0, three draws. *)
Definition same_template_twice : list Q :=
  [ 7 # 10; 0; 0; 0; 0;
    7 # 10; 3 # 10; 0; 0; 0;
    7 # 10; 0; 1 # 2; 1 # 2; 1 # 2 ]%Q.

(** Numeric, template 3 (the annuity), which then draws its largest
    monthly amount, its smallest rate and its smallest duration. *)
Definition largest_monthly : list Q :=
  [ 7 # 10; 8 # 10; 95 # 100; 0; 0 ]%Q.

(** What a batch of ten returns on that host, from the startup store. *)
Definition twelfths_batch : list ResolvedQuestion * Store :=
  Eval vm_compute in
    match getQuestionBatch MCQ_POOL NUMERIC_TEMPLATES 2 (Some 10%Z)
            twelfths startup with
    | Returns r => r
    | _ => ([], startup)
    end.

(** The tolerance the shipped catalog promises for a question served
    from the template [sid]. *)
Definition tolerance_rule (n : NumericQuestion.t) (sid : string) : Prop :=
  (0 <= NumericQuestion.tolerance n)%Q /\
  (sid = "num-rule-of-72" -> NumericQuestion.tolerance n = 1%Q) /\
  (sid <> "num-rule-of-72" ->
   NumericQuestion.tolerance n
   = (NumericQuestion.correctAnswer n * (1 # 100))%Q).

(** ** The batch loop, unrolled

    [count] consecutive calls of [getNextQuestion], collected in order:
    what the [for] loop of [getQuestionBatch] amounts to. *)
Section Unrolled.

Variable pool : list MCQQuestion.t.
Variable templates : list GeneratedQuestionTemplate.t.

Fixpoint callsN (budget count : nat) : M (list ResolvedQuestion) :=
  match count with
  | O => ret []
  | S count' =>
      q <- getNextQuestion pool templates budget ;;
      rest <- callsN budget count' ;;
      ret (q :: rest)
  end.

End Unrolled.

(** The outcome [r], continued with [k] when it is a return. *)
Definition and_then {X Y} (r : Outcome (X * Store))
    (k : X -> Store -> Outcome (Y * Store)) : Outcome (Y * Store) :=
  match r with
  | Returns (x, s') => k x s'
  | Throws e => Throws e
  | Diverges => Diverges
  end.

(** ** The home feed

    The screen that calls [getQuestionBatch]: its list of questions, the
    [isLoadingMore] flag, the handler that loads one more batch and the
    key it gives each list item. *)
Module HomeScreen.

Definition BATCH_SIZE : Z := 10.

Record t : Type := mk {
  questions : list ResolvedQuestion;
  isLoadingMore : bool
}.

(** [useState(() => getQuestionBatch(BATCH_SIZE))] and
    [useRef(false)]. *)
Definition mount (budget : nat) : M t :=
  initial <- getQuestionBatch MCQ_POOL NUMERIC_TEMPLATES budget
               (Some BATCH_SIZE) ;;
  ret (mk initial false).

(** [if (isLoadingMore.current) return;
     isLoadingMore.current = true;
     const newBatch = getQuestionBatch(BATCH_SIZE);
     setQuestions((prev) => [...prev, ...newBatch]);
     isLoadingMore.current = false;] *)
Definition handleEndReached (budget : nat) (screen : t) : M t :=
  if isLoadingMore screen then ret screen
  else
    newBatch <- getQuestionBatch MCQ_POOL NUMERIC_TEMPLATES budget
                  (Some BATCH_SIZE) ;;
    ret (mk (questions screen ++ newBatch) false).

(** The end of the list reached [loads] times in a row. *)
Fixpoint scroll (budget loads : nat) (screen : t) : M t :=
  match loads with
  | O => ret screen
  | S loads' =>
      screen' <- handleEndReached budget screen ;;
      scroll budget loads' screen'
  end.

(** The [id] field of either arm of [ResolvedQuestion]. *)
Definition item_id (item : ResolvedQuestion) : string :=
  match item with
  | Mcq q => MCQQuestion.id q
  | Numeric q => NumericQuestion.id q
  end.

(** [`${item.id}-${index}`] *)
Definition keyExtractor (item : ResolvedQuestion) (index : nat) : string :=
  item_id item ++ "-" ++ toString (Z.of_nat index).

(** The keys of a list: [keyExtractor] at every item and its position. *)
Definition keys (items : list ResolvedQuestion) : list string :=
  map (fun entry => keyExtractor (snd entry) (fst entry))
      (combine (seq 0 (length items)) items).

End HomeScreen.

(** ** Text typed by the user

    A string is a sequence of code units below 256. *)

Definition is_digit (c : ascii) : bool :=
  (48 <=? nat_of_ascii c)%nat && (nat_of_ascii c <=? 57)%nat.

(** The characters [\s] matches and [parseFloat] skips: tab, line feed,
    vertical tab, form feed, carriage return, space, no-break space. *)
Definition is_whitespace (c : ascii) : bool :=
  let n := nat_of_ascii c in
  (n =? 9)%nat || (n =? 10)%nat || (n =? 11)%nat || (n =? 12)%nat
  || (n =? 13)%nat || (n =? 32)%nat || (n =? 160)%nat.

Fixpoint all_digits (s : string) : bool :=
  match s with
  | EmptyString => true
  | String c rest => is_digit c && all_digits rest
  end.

(** [s.replace(/[$,\s]/g, "")] *)
Fixpoint strip (s : string) : string :=
  match s with
  | EmptyString => EmptyString
  | String c rest =>
      if (c =? "$")%char || (c =? ",")%char || is_whitespace c
      then strip rest
      else String c (strip rest)
  end.

(** A JavaScript [number] that may be [NaN] or infinite. *)
Inductive number : Type :=
| NaN
| Infinity (negative : bool)
| Finite (value : Q).

Fixpoint skip_whitespace (s : string) : string :=
  match s with
  | EmptyString => EmptyString
  | String c rest => if is_whitespace c then skip_whitespace rest else s
  end.

(** The longest run of decimal digits at the head, and what follows. *)
Fixpoint span_digits (s : string) : string * string :=
  match s with
  | EmptyString => (EmptyString, EmptyString)
  | String c rest =>
      if is_digit c
      then let (digits, after) := span_digits rest in (String c digits, after)
      else (EmptyString, s)
  end.

Definition digit_value (c : ascii) : Z := Z.of_nat (nat_of_ascii c) - 48.

(** The value of a run of decimal digits after the digits worth [acc]. *)
Fixpoint digits_value_from (acc : Z) (s : string) : Z :=
  match s with
  | EmptyString => acc
  | String c rest => digits_value_from (acc * 10 + digit_value c) rest
  end.

Definition digits_value (s : string) : Z := digits_value_from 0 s.

(** An optional sign. *)
Definition read_sign (s : string) : bool * string :=
  match s with
  | EmptyString => (false, s)
  | String c rest =>
      if (c =? "-")%char then (true, rest)
      else if (c =? "+")%char then (false, rest)
      else (false, s)
  end.

(** An exponent part: [e] or [E], an optional sign, at least one digit;
    anything else is not part of the number. *)
Definition read_exponent (s : string) : Z :=
  match s with
  | EmptyString => 0
  | String c rest =>
      if (c =? "e")%char || (c =? "E")%char then
        let (negative, after_sign) := read_sign rest in
        let (digits, _) := span_digits after_sign in
        if (String.length digits =? 0)%nat then 0
        else if negative then - digits_value digits else digits_value digits
      else 0
  end.

(** [parseFloat]: leading white space is skipped, then the longest
    prefix that is a decimal literal is read (sign, digits, a point and
    digits, an exponent; or [Infinity]); [NaN] when there is none. *)
Definition parseFloat (input : string) : number :=
  let trimmed := skip_whitespace input in
  let (negative, body) := read_sign trimmed in
  if prefix "Infinity" body then Infinity negative
  else
    let (whole, after_whole) := span_digits body in
    let (fraction, after_fraction) :=
      match after_whole with
      | String c rest =>
          if (c =? ".")%char then span_digits rest
          else (EmptyString, after_whole)
      | EmptyString => (EmptyString, after_whole)
      end in
    if (String.length whole =? 0)%nat && (String.length fraction =? 0)%nat
    then NaN
    else
      let mantissa :=
        (inject_Z (digits_value (whole ++ fraction))
         / 10 ^ Z.of_nat (String.length fraction))%Q in
      let magnitude := (mantissa * 10 ^ read_exponent after_fraction)%Q in
      Finite (if negative then (- magnitude)%Q else magnitude).

(** [isNaN], [x - y], [Math.abs] and [<=] where the left operand may be
    [NaN] or infinite and the right one is finite. *)
Definition isNaN (x : number) : bool :=
  match x with NaN => true | _ => false end.

Definition subtract (x : number) (y : Q) : number :=
  match x with
  | NaN => NaN
  | Infinity negative => Infinity negative
  | Finite a => Finite (a - y)
  end.

Definition Math_abs (x : number) : number :=
  match x with
  | NaN => NaN
  | Infinity _ => Infinity false
  | Finite a => Finite (Qabs a)
  end.

Definition at_most (x : number) (y : Q) : bool :=
  match x with
  | NaN => false
  | Infinity negative => negative
  | Finite a => Qle_bool a y
  end.

(** ** The numeric card *)
Module NumericCard.

Record t : Type := mk {
  inputValue : string;
  isSubmitted : bool;
  isCorrect : bool
}.

(** The three [useState] cells at their initial values. *)
Definition initial : t := mk "" false false.

(** [onChangeText={setInputValue}] *)
Definition setInputValue (text : string) (card : t) : t :=
  mk text (isSubmitted card) (isCorrect card).

Definition handleSubmit (question : NumericQuestion.t) (card : t) : t :=
  if isSubmitted card then card
  else
    let cleaned := strip (inputValue card) in
    let userAnswer := parseFloat cleaned in
    if isNaN userAnswer then card
    else
      let diff :=
        Math_abs (subtract userAnswer
                    (NumericQuestion.correctAnswer question)) in
      let correct := at_most diff (NumericQuestion.tolerance question) in
      mk (inputValue card) true correct.





End NumericCard.

(** ** The multiple-choice card *)
Module MCQCard.

Inductive OptionStyle : Type :=
| optionDefault
| optionCorrect
| optionIncorrect
| optionDisabled.

Inductive OptionTextStyle : Type :=
| optionTextDefault
| optionTextHighlighted
| optionTextDisabled.

(** [selectedIndex: number | null] *)
Definition t : Type := option Z.

Definition initial : t := None.

Section Card.

Variable question : MCQQuestion.t.
Variable selectedIndex : t.

Definition isAnswered : bool :=
  match selectedIndex with Some _ => true | None => false end.

(** [selectedIndex === question.correctIndex] *)
Definition isCorrect : bool :=
  match selectedIndex with
  | Some i => (i =? MCQQuestion.correctIndex question)%Z
  | None => false
  end.

Definition handleSelect (index : Z) : t :=
  if isAnswered then selectedIndex else Some index.

(** [index === selectedIndex] *)
Definition is_selected (index : Z) : bool :=
  match selectedIndex with
  | Some i => (index =? i)%Z
  | None => false
  end.

Definition getOptionStyle (index : Z) : OptionStyle :=
  if negb isAnswered then optionDefault
  else if (index =? MCQQuestion.correctIndex question)%Z then optionCorrect
  else if is_selected index && negb isCorrect then optionIncorrect
  else optionDisabled.

Definition getOptionTextStyle (index : Z) : OptionTextStyle :=
  if negb isAnswered then optionTextDefault
  else if (index =? MCQQuestion.correctIndex question)%Z
       then optionTextHighlighted
  else if is_selected index && negb isCorrect then optionTextHighlighted
  else optionTextDisabled.

End Card.

(** The options tapped one after the other. *)
Definition taps (question : MCQQuestion.t) (indices : list Z) (card : t)
    : t :=
  fold_left (fun c index => handleSelect c index) indices card.

End MCQCard.

(** A text with no decimal digit and no capital I in it. *)
Fixpoint no_number (s : string) : bool :=
  match s with
  | EmptyString => true
  | String c rest => negb (is_digit c) && negb (c =? "I")%char && no_number rest
  end.

(** The batch of three that repeats an identifier, for the examples. *)
Definition collision_feed : list ResolvedQuestion :=
  Eval vm_compute in
    match getQuestionBatch MCQ_POOL NUMERIC_TEMPLATES 1 (Some 3%Z)
            (replay same_template_twice frozen_clock) startup with
    | Returns (questions, _) => questions
    | _ => []
    end.

(** [x.toFixed(0)]: the nearest integer, a tie going away from zero. *)
Definition toFixed0 (x : Q) : string :=
  if Qle_bool 0 x then toString (Qfloor (x + (1 # 2)))
  else "-" ++ toString (Qfloor (- x + (1 # 2))).

(** [((question.tolerance / question.correctAnswer) * 100).toFixed(0)],
    the percentage the numeric card prints after a submission. *)
Definition toleranceHint (question : NumericQuestion.t) : string :=
  toFixed0 (NumericQuestion.tolerance question
            / NumericQuestion.correctAnswer question * 100)%Q.

(** ** The account screen: the experience level and its editor *)
Module AccountScreen.

Inductive ExperienceLevel : Type := beginner | intermediate | advanced.

Definition EXPERIENCE_LEVELS : list ExperienceLevel :=
  [beginner; intermediate; advanced].

Record t : Type := mk {
  experienceLevel : ExperienceLevel;
  isEditing : bool;
  editLevel : ExperienceLevel
}.

Definition initial : t := mk beginner false beginner.

(** [setExperienceLevel(editLevel); setIsEditing(false);] *)
Definition handleSave (screen : t) : t :=
  mk (editLevel screen) false (editLevel screen).

(** [setEditLevel(experienceLevel); setIsEditing(false);] *)
Definition handleCancel (screen : t) : t :=
  mk (experienceLevel screen) false (experienceLevel screen).

(** The Edit link: [setEditLevel(experienceLevel); setIsEditing(true);] *)
Definition pressEdit (screen : t) : t :=
  mk (experienceLevel screen) true (experienceLevel screen).

(** A level of the selector: [setEditLevel(level)] *)
Definition pickLevel (level : ExperienceLevel) (screen : t) : t :=
  mk (experienceLevel screen) (isEditing screen) level.

Inductive Press : Type :=
| Edit
| Level (level : ExperienceLevel)
| Save
| Cancel.

(** What the signed-in screen offers to press: the Edit link while not
    editing, the selector and the two buttons while editing. *)
Definition rendered (screen : t) (p : Press) : bool :=
  match p with
  | Edit => negb (isEditing screen)
  | Level _ | Save | Cancel => isEditing screen
  end.

Definition press (screen : t) (p : Press) : t :=
  if rendered screen p then
    match p with
    | Edit => pressEdit screen
    | Level level => pickLevel level screen
    | Save => handleSave screen
    | Cancel => handleCancel screen
    end
  else screen.

Definition presses (ps : list Press) (screen : t) : t :=
  fold_left press ps screen.

End AccountScreen.

(** [round2] respects equality of rationals. *)
#[local] Instance round2_Proper : Proper (Qeq ==> Qeq) round2.
Proof.
  intros a b Hab. unfold round2, Math_round. rewrite Hab. reflexivity.
Qed.

(** * Facts *)

(** ** Running the primitives *)

Lemma bind_returns {A B} (m : M A) (k : A -> M B) h s b s' :
  bind m k h s = Returns (b, s') ->
  exists a s1, m h s = Returns (a, s1) /\ k a h s1 = Returns (b, s').
Proof.
  unfold bind. destruct (m h s) as [[a s1] | e | ]; try discriminate.
  intros H. exists a, s1. split; [reflexivity | exact H].
Qed.

Lemma bind_run {A B} (m : M A) (k : A -> M B) h s a s1 :
  m h s = Returns (a, s1) -> bind m k h s = k a h s1.
Proof. unfold bind. intros ->. reflexivity. Qed.

Lemma randInt_run min max h s :
  randInt min max h s =
  Returns ((Qfloor (random h (randomCalls s) * inject_Z (max - min + 1))
            + min)%Z, drew s).
Proof. reflexivity. Qed.

Lemma floor_scaled_range (u : Q) (n : Z) :
  (0 <= u)%Q -> (u < 1)%Q -> (0 < n)%Z ->
  (0 <= Qfloor (u * inject_Z n) < n)%Z.
Proof.
  intros H0 H1 Hn.
  assert (Hnq : (0 < inject_Z n)%Q)
    by (change 0%Q with (inject_Z 0); rewrite <- Zlt_Qlt; exact Hn).
  split.
  - change 0%Z with (Qfloor 0). apply Qfloor_resp_le.
    apply Qmult_le_0_compat; [exact H0 | apply Qlt_le_weak; exact Hnq].
  - rewrite Zlt_Qlt.
    apply Qle_lt_trans with (u * inject_Z n)%Q; [apply Qfloor_le |].
    setoid_replace (inject_Z n) with (1 * inject_Z n)%Q at 2 by ring.
    apply Qmult_lt_compat_r; assumption.
Qed.

Lemma randInt_range h s min max :
  unit_interval h -> (min <= max)%Z ->
  exists v, randInt min max h s = Returns (v, drew s) /\ (min <= v <= max)%Z.
Proof.
  intros Hu Hle. rewrite randInt_run. eexists. split; [reflexivity |].
  destruct (Hu (randomCalls s)) as [H0 H1].
  pose proof (floor_scaled_range _ (max - min + 1) H0 H1 ltac:(lia)). lia.
Qed.

Lemma at_index_In {A} (a : list A) i x : at_index a i = Some x -> In x a.
Proof.
  unfold at_index. destruct (i <? 0)%Z; [discriminate |].
  apply nth_error_In.
Qed.

Lemma at_index_in_range {A} (a : list A) i :
  (0 <= i < Z.of_nat (length a))%Z -> exists x, at_index a i = Some x.
Proof.
  intros Hi. unfold at_index.
  destruct (Z.ltb_spec i 0); [lia |].
  destruct (nth_error a (Z.to_nat i)) as [x |] eqn:E; [eauto |].
  apply nth_error_None in E. lia.
Qed.

Lemma same_id_true id last : same_id id last = true <-> last = Some id.
Proof.
  destruct last as [l |]; simpl.
  - rewrite String.eqb_eq. split; congruence.
  - split; discriminate.
Qed.

(** ** The retry loop *)

Section RerollFacts.

Context {A : Type}.
Variable ident : A -> string.
Variable catalog : list A.

Let size : Z := Z.of_nat (length catalog).

Lemma reroll_step budget h s :
  reroll ident catalog (S budget) h s =
  match at_index catalog (drawn_index h size (randomCalls s)) with
  | None => Throws "TypeError: cannot read property 'id' of undefined"
  | Some x =>
      if same_id (ident x) (lastQuestionId s) && (1 <? length catalog)%nat
      then reroll ident catalog budget h (drew s)
      else Returns (x, drew s)
  end.
Proof.
  unfold drawn_index, size. simpl. unfold bind at 1. rewrite randInt_run.
  destruct (at_index catalog _) as [x |]; [| reflexivity].
  unfold bind, readLast. simpl.
  destruct (same_id _ _ && _); reflexivity.
Qed.

(** What a normal exit of the loop tells. *)
Lemma reroll_returns budget : forall h s x s',
  reroll ident catalog budget h s = Returns (x, s') ->
  In x catalog /\
  lastQuestionId s' = lastQuestionId s /\
  clockCalls s' = clockCalls s /\
  (randomCalls s < randomCalls s')%nat /\
  ((1 < length catalog)%nat -> lastQuestionId s <> Some (ident x)).
Proof.
  induction budget as [| budget IH]; intros h s x s' H.
  - discriminate.
  - rewrite reroll_step in H.
    destruct (at_index catalog _) as [y |] eqn:Ey; [| discriminate].
    destruct (same_id (ident y) (lastQuestionId s)) eqn:Eid;
      destruct (Nat.ltb_spec 1 (length catalog)) as [Hlen | Hlen];
      simpl in H.
    + apply IH in H. destruct H as (Hin & Hl & Hc & Hr & Hne).
      simpl in *. repeat split; auto; lia.
    + inversion H; subst. simpl. repeat split; auto.
      * eapply at_index_In; eauto.
      * lia.
    + inversion H; subst. simpl. repeat split; auto.
      * eapply at_index_In; eauto.
      * intros _ Hs. apply same_id_true in Hs. congruence.
    + inversion H; subst. simpl. repeat split; auto.
      * eapply at_index_In; eauto.
      * lia.
Qed.

(** A larger budget does not change a result already reached. *)
Lemma reroll_mono budget : forall h s r budget',
  reroll ident catalog budget h s = Returns r ->
  (budget <= budget')%nat ->
  reroll ident catalog budget' h s = Returns r.
Proof.
  induction budget as [| budget IH]; intros h s r budget' H Hle.
  - discriminate.
  - destruct budget' as [| budget']; [lia |].
    rewrite reroll_step in *.
    destruct (at_index catalog _) as [y |]; [| discriminate].
    destruct (same_id _ _ && _); [| exact H].
    apply IH; [exact H | lia].
Qed.

(** With a single entry the loop leaves after its first draw, whatever
    [lastQuestionId] holds. *)
Lemma reroll_single x budget h s :
  catalog = [x] -> unit_interval h ->
  reroll ident catalog (S budget) h s = Returns (x, drew s).
Proof.
  intros Hc Hu. rewrite reroll_step. unfold size, drawn_index.
  subst catalog. simpl length.
  destruct (Hu (randomCalls s)) as [H0 H1].
  pose proof (floor_scaled_range _ 1 H0 H1 ltac:(lia)) as Hr.
  replace (Z.of_nat 1 - 1 - 0 + 1)%Z with 1%Z by lia.
  replace (Qfloor (random h (randomCalls s) * inject_Z 1) + 0)%Z
    with 0%Z by lia.
  simpl. rewrite andb_false_r. reflexivity.
Qed.

Lemma drawn_index_in_range h i :
  unit_interval h -> catalog <> [] ->
  exists x, at_index catalog (drawn_index h size i) = Some x.
Proof.
  intros Hu Hne. apply at_index_in_range.
  unfold drawn_index, size. destruct (Hu i) as [H0 H1].
  assert (0 < Z.of_nat (length catalog))%Z
    by (destruct catalog; [congruence | simpl; lia]).
  pose proof (floor_scaled_range _ (Z.of_nat (length catalog)) H0 H1
                ltac:(lia)).
  replace (Z.of_nat (length catalog) - 1 - 0 + 1)%Z
    with (Z.of_nat (length catalog)) by lia. lia.
Qed.

(** If the draw [k] positions ahead gets away from [lastQuestionId],
    a budget of [k + 1] rounds is enough. *)
Lemma reroll_reaches h k : forall s,
  unit_interval h -> catalog <> [] ->
  (forall x,
      at_index catalog (drawn_index h size (randomCalls s + k)) = Some x ->
      same_id (ident x) (lastQuestionId s) = false) ->
  exists x s', reroll ident catalog (S k) h s = Returns (x, s').
Proof.
  induction k as [| k IH]; intros s Hu Hne Hk; rewrite reroll_step;
    destruct (drawn_index_in_range h (randomCalls s) Hu Hne) as [x Hx];
    rewrite Hx.
  - rewrite Nat.add_0_r in Hk. rewrite (Hk x Hx). simpl. eauto.
  - destruct (same_id (ident x) (lastQuestionId s) && _); [| eauto].
    apply IH; auto. simpl. intros y Hy. apply Hk.
    rewrite <- Hy. f_equal. f_equal. lia.
Qed.

Lemma reroll_total h s :
  unit_interval h -> catalog <> [] -> escapes ident catalog h ->
  exists budget x s', reroll ident catalog budget h s = Returns (x, s').
Proof.
  intros Hu Hne He.
  destruct (He (randomCalls s) (lastQuestionId s)) as [k Hk].
  exists (S k). apply reroll_reaches; assumption.
Qed.

(** Distinct identifiers and a restless index sequence are enough. *)
Lemma restless_escapes h :
  NoDup (map ident catalog) -> restless h size -> escapes ident catalog h.
Proof.
  intros Hnd Hr c last. fold size.
  destruct (at_index catalog (drawn_index h size c)) as [x0 |] eqn:E0.
  - destruct (same_id (ident x0) last) eqn:Es.
    + destruct (Hr c) as [k Hk]. exists k. intros x Hx.
      destruct (same_id (ident x) last) eqn:Ex; [| reflexivity].
      exfalso. apply Hk.
      apply same_id_true in Es. apply same_id_true in Ex.
      assert (Hid : ident x = ident x0) by congruence.
      unfold at_index in *.
      destruct (Z.ltb_spec (drawn_index h size (c + k)) 0);
        [discriminate |].
      destruct (Z.ltb_spec (drawn_index h size c) 0); [discriminate |].
      assert (Hn : Z.to_nat (drawn_index h size (c + k))
                   = Z.to_nat (drawn_index h size c)).
      { apply (proj1 (NoDup_nth_error (map ident catalog)) Hnd).
        - rewrite length_map. apply nth_error_Some. congruence.
        - rewrite !nth_error_map, Hx, E0. simpl. congruence. }
      lia.
    + exists 0%nat. rewrite Nat.add_0_r. intros x Hx.
      rewrite E0 in Hx. inversion Hx; subst. exact Es.
  - exists 0%nat. rewrite Nat.add_0_r. intros x Hx. congruence.
Qed.

End RerollFacts.

(** ** One call of [getNextQuestion] *)

Section SelectionFacts.

Variable pool : list MCQQuestion.t.
Variable templates : list GeneratedQuestionTemplate.t.

Let next := getNextQuestion pool templates.

Lemma getNextQuestion_mcq budget h s :
  Qle_bool (6 # 10) (random h (randomCalls s)) = false ->
  next budget h s =
  match reroll MCQQuestion.id pool budget h (drew s) with
  | Returns (m, s1) =>
      Returns (Mcq m, mkStore (Some (MCQQuestion.id m))
                              (randomCalls s1) (clockCalls s1))
  | Throws e => Throws e
  | Diverges => Diverges
  end.
Proof.
  intros Hu. unfold next, getNextQuestion, bind at 1. simpl.
  fold (drew s). rewrite Hu. simpl. unfold bind at 1.
  destruct (reroll _ _ _ _ _) as [[m s1] | e |]; reflexivity.
Qed.

Lemma getNextQuestion_numeric budget h s :
  Qle_bool (6 # 10) (random h (randomCalls s)) = true ->
  next budget h s =
  match reroll GeneratedQuestionTemplate.id templates budget h (drew s) with
  | Returns (t, s1) =>
      match GeneratedQuestionTemplate.generator t h s1 with
      | Returns (g, s2) =>
          Returns (Numeric (resolved t g (now h (clockCalls s2))),
                   mkStore (Some (GeneratedQuestionTemplate.id t))
                           (randomCalls s2) (S (clockCalls s2)))
      | Throws e => Throws e
      | Diverges => Diverges
      end
  | Throws e => Throws e
  | Diverges => Diverges
  end.
Proof.
  intros Hu. unfold next, getNextQuestion, bind at 1. simpl.
  fold (drew s). rewrite Hu. simpl. unfold bind at 1.
  destruct (reroll _ _ _ _ _) as [[t s1] | e |]; reflexivity.
Qed.

(** What a returned question tells about the call that made it. *)
Lemma getNextQuestion_returns budget h s q s' :
  next budget h s = Returns (q, s') ->
  (exists m,
      q = Mcq m /\ In m pool /\
      lastQuestionId s' = Some (MCQQuestion.id m) /\
      clockCalls s' = clockCalls s /\
      ((1 < length pool)%nat ->
       lastQuestionId s <> Some (MCQQuestion.id m)))
  \/
  (exists t g s1 s2,
      q = Numeric (resolved t g (now h (clockCalls s2))) /\
      In t templates /\
      GeneratedQuestionTemplate.generator t h s1 = Returns (g, s2) /\
      lastQuestionId s' = Some (GeneratedQuestionTemplate.id t) /\
      clockCalls s' = S (clockCalls s2) /\
      ((1 < length templates)%nat ->
       lastQuestionId s <> Some (GeneratedQuestionTemplate.id t))).
Proof.
  intros H.
  destruct (Qle_bool (6 # 10) (random h (randomCalls s))) eqn:Hu.
  - right. rewrite (getNextQuestion_numeric _ _ _ Hu) in H.
    destruct (reroll _ _ _ _ _) as [[t s1] | e |] eqn:Er; try discriminate.
    destruct (GeneratedQuestionTemplate.generator t h s1)
      as [[g s2] | e |] eqn:Eg; try discriminate.
    inversion H; subst; clear H.
    apply reroll_returns in Er. destruct Er as (Hin & Hl & _ & _ & Hne).
    exists t, g, s1, s2. simpl. repeat split; auto.
  - left. rewrite (getNextQuestion_mcq _ _ _ Hu) in H.
    destruct (reroll _ _ _ _ _) as [[m s1] | e |] eqn:Er; try discriminate.
    inversion H; subst; clear H.
    apply reroll_returns in Er. destruct Er as (Hin & Hl & Hc & _ & Hne).
    exists m. simpl. repeat split; auto.
Qed.

(** The store a call leaves behind names the entry it served, and that
    entry is not the one named before, when there was a choice. *)
Lemma getNextQuestion_source budget h s q s' :
  next budget h s = Returns (q, s') ->
  exists sid,
    lastQuestionId s' = Some sid /\
    source_of pool templates q sid /\
    ((1 < catalog_size pool templates q)%nat ->
     lastQuestionId s <> Some sid).
Proof.
  intros H. apply getNextQuestion_returns in H.
  destruct H as [(m & -> & Hin & Hl & _ & Hne)
                | (t & g & s1 & s2 & -> & Hin & _ & Hl & _ & Hne)].
  - exists (MCQQuestion.id m). simpl. auto.
  - exists (GeneratedQuestionTemplate.id t). simpl. repeat split; auto.
    exists t, (now h (clockCalls s2)). auto.
Qed.

Lemma getNextQuestion_mono budget budget' h s r :
  next budget h s = Returns r -> (budget <= budget')%nat ->
  next budget' h s = Returns r.
Proof.
  intros H Hle.
  destruct (Qle_bool (6 # 10) (random h (randomCalls s))) eqn:Hu.
  - rewrite (getNextQuestion_numeric budget _ _ Hu) in H.
    rewrite (getNextQuestion_numeric budget' _ _ Hu).
    destruct (reroll GeneratedQuestionTemplate.id templates budget h
                (drew s)) as [[t s1] | e |] eqn:Er; try discriminate.
    rewrite (reroll_mono _ _ _ _ _ _ _ Er Hle). exact H.
  - rewrite (getNextQuestion_mcq budget _ _ Hu) in H.
    rewrite (getNextQuestion_mcq budget' _ _ Hu).
    destruct (reroll MCQQuestion.id pool budget h (drew s))
      as [[m s1] | e |] eqn:Er; try discriminate.
    rewrite (reroll_mono _ _ _ _ _ _ _ Er Hle). exact H.
Qed.

Lemma getNextQuestion_total h s :
  unit_interval h -> pool <> [] -> templates <> [] ->
  escapes MCQQuestion.id pool h ->
  escapes GeneratedQuestionTemplate.id templates h ->
  generators_return templates h ->
  exists budget q s', next budget h s = Returns (q, s').
Proof.
  intros Hu Hp Ht Hep Het Hg.
  destruct (Qle_bool (6 # 10) (random h (randomCalls s))) eqn:Hq.
  - destruct (reroll_total _ _ h (drew s) Hu Ht Het)
      as (budget & t & s1 & Er).
    destruct (Hg t s1) as (g & s2 & Eg).
    { apply reroll_returns in Er. tauto. }
    exists budget. rewrite (getNextQuestion_numeric _ _ _ Hq), Er, Eg. eauto.
  - destruct (reroll_total _ _ h (drew s) Hu Hp Hep)
      as (budget & m & s1 & Er).
    exists budget. rewrite (getNextQuestion_mcq _ _ _ Hq), Er. eauto.
Qed.

(** ** Runs of calls and the batch loop *)

Lemma Calls_mono budget budget' h s trace s' :
  Calls pool templates budget h s trace s' -> (budget <= budget')%nat ->
  Calls pool templates budget' h s trace s'.
Proof.
  intros H Hle. induction H; econstructor; eauto.
  eapply getNextQuestion_mono; eauto.
Qed.

Lemma Calls_total h n :
  unit_interval h -> pool <> [] -> templates <> [] ->
  escapes MCQQuestion.id pool h ->
  escapes GeneratedQuestionTemplate.id templates h ->
  generators_return templates h ->
  forall s, exists budget trace s',
    Calls pool templates budget h s trace s' /\ length trace = n.
Proof.
  intros Hu Hp Ht Hep Het Hg.
  induction n as [| n IH]; intros s.
  - exists 0%nat, [], s. split; [constructor | reflexivity].
  - destruct (getNextQuestion_total h s Hu Hp Ht Hep Het Hg)
      as (b1 & q & s1 & Hq).
    destruct (IH s1) as (b2 & trace & s' & Hc & Hlen).
    exists (Nat.max b1 b2), ((q, s1) :: trace), s'. split.
    + econstructor.
      * eapply getNextQuestion_mono; [exact Hq | lia].
      * eapply Calls_mono; [exact Hc | lia].
    + simpl. congruence.
Qed.

(** Consecutive entries of a run are consecutive calls. *)
Lemma Calls_consecutive budget h s trace s' :
  Calls pool templates budget h s trace s' ->
  forall i q1 s1 q2 s2,
    nth_error trace i = Some (q1, s1) ->
    nth_error trace (S i) = Some (q2, s2) ->
    next budget h s1 = Returns (q2, s2).
Proof.
  induction 1 as [| s q sa rest s' Hq Hrest IH]; intros i q1 s1 q2 s2 H1 H2.
  - destruct i; discriminate.
  - destruct i as [| i].
    + simpl in H1, H2. inversion H1; subst.
      inversion Hrest; subst; simpl in H2; [discriminate |].
      inversion H2; subst. assumption.
    + simpl in H1. eapply IH; eauto.
Qed.

(** Every entry of a run is the result of a call. *)
Lemma Calls_each budget h s trace s' :
  Calls pool templates budget h s trace s' ->
  forall q s1, In (q, s1) trace ->
    exists s0, next budget h s0 = Returns (q, s1).
Proof.
  induction 1 as [| s q sa rest s' Hq Hrest IH]; intros q1 s1 Hin.
  - destruct Hin.
  - destruct Hin as [Heq | Hin].
    + inversion Heq; subst. eauto.
    + eauto.
Qed.

Lemma pushLoop_Calls budget steps : forall count i qs h s out s',
  steps = Z.to_nat (count - i) ->
  (pushLoop pool templates budget steps count i qs h s = Returns (out, s')
   <->
   exists trace,
     Calls pool templates budget h s trace s' /\
     out = (qs ++ map fst trace)%list /\ length trace = steps).
Proof.
  induction steps as [| steps IH]; intros count i qs h s out s' Hsteps.
  - simpl. destruct (Z.ltb_spec i count); [lia |]. unfold ret. split.
    + intros H'. inversion H'; subst. exists []. simpl.
      rewrite List.app_nil_r. repeat split. constructor.
    + intros (trace & Hc & -> & Hlen).
      destruct trace; [| discriminate]. inversion Hc; subst.
      simpl. rewrite List.app_nil_r. reflexivity.
  - simpl. destruct (Z.ltb_spec i count); [| lia]. split.
    + intros H'. apply bind_returns in H'.
      destruct H' as (q & s1 & Hq & Hrest).
      apply (IH count (i + 1)%Z) in Hrest; [| lia].
      destruct Hrest as (trace & Hc & -> & Hlen).
      exists ((q, s1) :: trace). repeat split.
      * econstructor; eauto.
      * simpl. rewrite <- List.app_assoc. reflexivity.
      * simpl. congruence.
    + intros (trace & Hc & -> & Hlen).
      destruct trace as [| [q s1] trace]; [discriminate |].
      inversion Hc; subst.
      erewrite bind_run by eassumption.
      apply (IH count (i + 1)%Z); [lia |].
      exists trace. split; [assumption |]. split.
      * simpl. rewrite <- List.app_assoc. reflexivity.
      * simpl in Hlen. congruence.
Qed.

Lemma getQuestionBatch_Calls budget count h s qs s' :
  getQuestionBatch pool templates budget count h s = Returns (qs, s')
  <->
  exists trace,
    Calls pool templates budget h s trace s' /\
    qs = map fst trace /\ length trace = Z.to_nat (requested count).
Proof.
  unfold getQuestionBatch. cbv zeta.
  rewrite (pushLoop_Calls budget (Z.to_nat (requested count))
             (requested count) 0 [] h s qs s') by (f_equal; lia).
  reflexivity.
Qed.

Lemma getQuestionBatch_mono budget budget' count h s r :
  getQuestionBatch pool templates budget count h s = Returns r ->
  (budget <= budget')%nat ->
  getQuestionBatch pool templates budget' count h s = Returns r.
Proof.
  destruct r as [qs s']. intros H Hle.
  apply getQuestionBatch_Calls in H. apply getQuestionBatch_Calls.
  destruct H as (trace & Hc & Hq & Hlen).
  exists trace. split; [eapply Calls_mono; eauto | auto].
Qed.

End SelectionFacts.

(** ** Rendering *)

Lemma append_inj_l (p a b : string) : p ++ a = p ++ b -> a = b.
Proof.
  induction p as [| c p IH]; simpl; intros H; [exact H |].
  inversion H. auto.
Qed.

Lemma to_int_proper (z : Z) :
  Z.to_int z <> Decimal.Pos Decimal.Nil /\
  Z.to_int z <> Decimal.Neg Decimal.Nil.
Proof.
  destruct z as [| p | p]; simpl; split; try discriminate;
    intros H; inversion H as [Hp];
    exact (DecimalPos.Unsigned.to_uint_nonnil p Hp).
Qed.

Lemma toString_inj a b : toString a = toString b -> a = b.
Proof.
  unfold toString. intros H.
  apply (f_equal NilZero.int_of_string) in H.
  destruct (to_int_proper a) as [Ha1 Ha2].
  destruct (to_int_proper b) as [Hb1 Hb2].
  rewrite !NilZero.isi in H by assumption.
  inversion H as [H']. apply DecimalZ.to_int_inj. exact H'.
Qed.

(** Two identifiers built from one template agree exactly when their
    time stamps do. *)
Lemma stamped_id_inj (tid : string) (a b : Z) :
  tid ++ "-" ++ toString a = tid ++ "-" ++ toString b <-> a = b.
Proof.
  split; [| congruence].
  intros H. apply append_inj_l in H. apply append_inj_l in H.
  apply toString_inj. exact H.
Qed.

(** ** Rounding and the answers *)

Lemma round2_nonneg (x : Q) : (0 <= x)%Q -> (0 <= round2 x)%Q.
Proof.
  intros Hx. unfold round2, Math_round.
  apply Qle_shift_div_l; [reflexivity |].
  setoid_replace (0 * 100)%Q with (inject_Z 0) by reflexivity.
  rewrite <- Zle_Qle. change 0%Z with (Qfloor 0). apply Qfloor_resp_le.
  apply Qle_trans with (x * 100)%Q.
  - apply Qmult_le_0_compat; [exact Hx | discriminate].
  - rewrite <- (Qplus_0_r (x * 100)) at 1.
    apply Qplus_le_r. discriminate.
Qed.

Lemma inject_Z_nonneg (z : Z) : (0 <= z)%Z -> (0 <= inject_Z z)%Q.
Proof.
  intros H. change 0%Q with (inject_Z 0). rewrite <- Zle_Qle. exact H.
Qed.

Lemma percent_nonneg (x : Q) : (0 <= x)%Q -> (0 <= x * (1 # 100))%Q.
Proof. intros H. apply Qmult_le_0_compat; [exact H | discriminate]. Qed.

Lemma compoundInterest_nonneg principal rate years :
  (0 <= principal)%Z -> (0 <= rate)%Z ->
  (0 <= Gen.correctAnswer (compoundInterest principal rate years))%Q.
Proof.
  intros Hp Hr. simpl. apply round2_nonneg.
  apply Qmult_le_0_compat; [apply inject_Z_nonneg; exact Hp |].
  apply Qpower_0_le.
  apply Qle_trans with (1 + 0)%Q; [discriminate |].
  apply Qplus_le_r. apply Qle_shift_div_l; [reflexivity |].
  setoid_replace (0 * 100)%Q with 0%Q by reflexivity.
  apply inject_Z_nonneg; exact Hr.
Qed.

Lemma simpleInterest_nonneg principal rate years :
  (0 <= principal)%Z -> (0 <= rate)%Z -> (0 <= years)%Z ->
  (0 <= Gen.correctAnswer (simpleInterest principal rate years))%Q.
Proof.
  intros Hp Hr Hy. simpl.
  apply Qle_trans with (0 + 0)%Q; [discriminate |].
  apply Qplus_le_compat; [apply inject_Z_nonneg; exact Hp |].
  apply round2_nonneg.
  apply Qmult_le_0_compat; [| apply inject_Z_nonneg; exact Hy].
  apply Qmult_le_0_compat; [apply inject_Z_nonneg; exact Hp |].
  apply Qle_shift_div_l; [reflexivity |].
  setoid_replace (0 * 100)%Q with 0%Q by reflexivity.
  apply inject_Z_nonneg; exact Hr.
Qed.

Lemma futureValueAnnuity_nonneg monthly rate years :
  (0 <= monthly)%Z -> (0 < rate)%Z -> (0 <= years)%Z ->
  (0 <= Gen.correctAnswer (futureValueAnnuity monthly rate years))%Q.
Proof.
  intros Hm Hr Hy. simpl. apply round2_nonneg.
  assert (Hrq : (0 < inject_Z rate / 100 / 12)%Q).
  { apply Qlt_shift_div_l; [reflexivity |].
    setoid_replace (0 * 12)%Q with 0%Q by reflexivity.
    apply Qlt_shift_div_l; [reflexivity |].
    setoid_replace (0 * 100)%Q with (inject_Z 0) by reflexivity.
    rewrite <- Zlt_Qlt. exact Hr. }
  apply Qmult_le_0_compat; [apply inject_Z_nonneg; exact Hm |].
  apply Qle_shift_div_l; [exact Hrq |].
  setoid_replace (0 * (inject_Z rate / 100 / 12))%Q with 0%Q by ring.
  apply (Qplus_le_l _ _ 1).
  setoid_replace ((1 + inject_Z rate / 100 / 12) ^ (years * 12) - 1 + 1)%Q
    with ((1 + inject_Z rate / 100 / 12) ^ (years * 12))%Q by ring.
  apply Qpower_1_le; [| lia].
  rewrite <- (Qplus_0_r 1) at 1.
  apply Qplus_le_r. apply Qlt_le_weak. exact Hrq.
Qed.

(** ** The shipped generators *)

(** Runs the draws of a generator one after the other: each [randInt]
    returns a value of its range and advances the cursor by one. *)
Ltac run_draw Hu s min max v Hv :=
  let E := fresh "E" in
  destruct (randInt_range _ s min max Hu ltac:(lia)) as (v & E & Hv);
  rewrite (bind_run _ _ _ _ _ _ E); clear E.

Lemma compoundInterestGenerator_run h s :
  unit_interval h ->
  exists k rate years,
    (1 <= k <= 50)%Z /\ (2 <= rate <= 12)%Z /\ (1 <= years <= 10)%Z /\
    compoundInterestGenerator h s =
    Returns (compoundInterest (k * 1000) rate years, drew (drew (drew s))).
Proof.
  intros Hu. unfold compoundInterestGenerator.
  run_draw Hu s 1%Z 50%Z k Hk.
  run_draw Hu (drew s) 2%Z 12%Z r Hr.
  run_draw Hu (drew (drew s)) 1%Z 10%Z y Hy.
  exists k, r, y. repeat (split; [lia |]). reflexivity.
Qed.

Lemma simpleInterestGenerator_run h s :
  unit_interval h ->
  exists k rate years,
    (1 <= k <= 20)%Z /\ (3 <= rate <= 10)%Z /\ (1 <= years <= 5)%Z /\
    simpleInterestGenerator h s =
    Returns (simpleInterest (k * 1000) rate years, drew (drew (drew s))).
Proof.
  intros Hu. unfold simpleInterestGenerator.
  run_draw Hu s 1%Z 20%Z k Hk.
  run_draw Hu (drew s) 3%Z 10%Z r Hr.
  run_draw Hu (drew (drew s)) 1%Z 5%Z y Hy.
  exists k, r, y. repeat (split; [lia |]). reflexivity.
Qed.

Lemma ruleOf72Generator_run h s :
  unit_interval h ->
  exists rate,
    (2 <= rate <= 12)%Z /\
    ruleOf72Generator h s = Returns (ruleOf72 rate, drew s).
Proof.
  intros Hu. unfold ruleOf72Generator.
  run_draw Hu s 2%Z 12%Z r Hr.
  exists r. split; [lia | reflexivity].
Qed.

Lemma futureValueAnnuityGenerator_run h s :
  unit_interval h ->
  exists k rate years,
    (1 <= k <= 10)%Z /\ (4 <= rate <= 10)%Z /\ (2 <= years <= 10)%Z /\
    futureValueAnnuityGenerator h s =
    Returns (futureValueAnnuity (k * 100) rate years, drew (drew (drew s))).
Proof.
  intros Hu. unfold futureValueAnnuityGenerator.
  run_draw Hu s 1%Z 10%Z k Hk.
  run_draw Hu (drew s) 4%Z 10%Z r Hr.
  run_draw Hu (drew (drew s)) 2%Z 10%Z y Hy.
  exists k, r, y. repeat (split; [lia |]). reflexivity.
Qed.

(** The generators of the shipped catalog cannot fail: they only draw. *)
Lemma shipped_generators_return h : generators_return NUMERIC_TEMPLATES h.
Proof.
  intros t s Hin. simpl in Hin.
  destruct Hin as [<- | [<- | [<- | [<- | []]]]];
    cbv [GeneratedQuestionTemplate.generator compoundInterestGenerator
         simpleInterestGenerator ruleOf72Generator
         futureValueAnnuityGenerator bind randInt Math_random ret];
    eexists; eexists; reflexivity.
Qed.

(** The tolerance each shipped generator reports. *)
Lemma shipped_tolerance h t s g s' :
  unit_interval h -> In t NUMERIC_TEMPLATES ->
  GeneratedQuestionTemplate.generator t h s = Returns (g, s') ->
  exists tol,
    Gen.tolerance g = Some tol /\ (0 <= tol)%Q /\
    (GeneratedQuestionTemplate.id t = "num-rule-of-72" -> tol = 1%Q) /\
    (GeneratedQuestionTemplate.id t <> "num-rule-of-72" ->
     tol = (Gen.correctAnswer g * (1 # 100))%Q).
Proof.
  intros Hu Hin Hg. simpl in Hin.
  destruct Hin as [<- | [<- | [<- | [<- | []]]]]; simpl in Hg.
  - destruct (compoundInterestGenerator_run h s Hu)
      as (k & r & y & Hk & Hr & Hy & E).
    rewrite E in Hg. inversion Hg; subst; clear Hg.
    eexists. split; [reflexivity |]. split; [| split].
    + apply percent_nonneg.
      apply (compoundInterest_nonneg (k * 1000) r y); lia.
    + simpl. discriminate.
    + reflexivity.
  - destruct (simpleInterestGenerator_run h s Hu)
      as (k & r & y & Hk & Hr & Hy & E).
    rewrite E in Hg. inversion Hg; subst; clear Hg.
    eexists. split; [reflexivity |]. split; [| split].
    + apply percent_nonneg.
      apply (simpleInterest_nonneg (k * 1000) r y); lia.
    + simpl. discriminate.
    + reflexivity.
  - destruct (ruleOf72Generator_run h s Hu) as (r & Hr & E).
    rewrite E in Hg. inversion Hg; subst; clear Hg.
    exists 1%Q. split; [reflexivity |]. split; [discriminate | split].
    + reflexivity.
    + simpl. congruence.
  - destruct (futureValueAnnuityGenerator_run h s Hu)
      as (k & r & y & Hk & Hr & Hy & E).
    rewrite E in Hg. inversion Hg; subst; clear Hg.
    eexists. split; [reflexivity |]. split; [| split].
    + apply percent_nonneg.
      apply (futureValueAnnuity_nonneg (k * 100) r y); lia.
    + simpl. discriminate.
    + reflexivity.
Qed.

(** ** The shipped catalogs *)

Lemma MCQ_POOL_ids_distinct : NoDup (map MCQQuestion.id MCQ_POOL).
Proof.
  simpl. repeat (constructor; [simpl; intuition discriminate |]).
  constructor.
Qed.

Lemma NUMERIC_TEMPLATES_ids_distinct :
  NoDup (map GeneratedQuestionTemplate.id NUMERIC_TEMPLATES).
Proof.
  simpl. repeat (constructor; [simpl; intuition discriminate |]).
  constructor.
Qed.

(** ** The host that walks through the twelfths *)

Lemma twelfths_unit_interval : unit_interval twelfths.
Proof.
  intros i. unfold twelfths. cbn [random].
  pose proof (Nat.mod_upper_bound i 12 ltac:(lia)) as Hb.
  split.
  - apply Qle_shift_div_l; [reflexivity |].
    setoid_replace (0 * 12)%Q with 0%Q by reflexivity.
    apply inject_Z_nonneg. lia.
  - apply Qlt_shift_div_r; [reflexivity |].
    setoid_replace (1 * 12)%Q with (inject_Z 12) by reflexivity.
    rewrite <- Zlt_Qlt. lia.
Qed.

Lemma twelfths_index_12 i :
  drawn_index twelfths 12 i = Z.of_nat (i mod 12).
Proof.
  unfold drawn_index, twelfths. cbn [random].
  change (12 - 1 - 0 + 1)%Z with 12%Z.
  setoid_replace (inject_Z (Z.of_nat (i mod 12)) / 12 * inject_Z 12)%Q
    with (inject_Z (Z.of_nat (i mod 12))) by field.
  rewrite Qfloor_Z. lia.
Qed.

Lemma twelfths_index_4 i :
  drawn_index twelfths 4 i = (Z.of_nat (i mod 12) / 3)%Z.
Proof.
  unfold drawn_index, twelfths. cbn [random].
  change (4 - 1 - 0 + 1)%Z with 4%Z.
  setoid_replace (inject_Z (Z.of_nat (i mod 12)) / 12 * inject_Z 4)%Q
    with (inject_Z (Z.of_nat (i mod 12)) / inject_Z 3)%Q by field.
  rewrite <- Zdiv_Qdiv. lia.
Qed.

Lemma twelfths_restless_12 : restless twelfths 12.
Proof.
  intros c. exists 1%nat. rewrite !twelfths_index_12.
  pose proof (Nat.div_mod_eq c 12). pose proof (Nat.div_mod_eq (c + 1) 12).
  pose proof (Nat.mod_upper_bound c 12 ltac:(lia)).
  pose proof (Nat.mod_upper_bound (c + 1) 12 ltac:(lia)). lia.
Qed.

Lemma thirds_differ (m m' : nat) :
  (m < 12)%nat -> (m' < 12)%nat ->
  (m' = m + 3 \/ m' + 9 = m)%nat ->
  (Z.of_nat m' / 3 <> Z.of_nat m / 3)%Z.
Proof.
  intros Hm Hm' Hcase.
  pose proof (Z.div_mod (Z.of_nat m) 3 ltac:(lia)).
  pose proof (Z.div_mod (Z.of_nat m') 3 ltac:(lia)).
  pose proof (Z.mod_pos_bound (Z.of_nat m) 3 ltac:(lia)).
  pose proof (Z.mod_pos_bound (Z.of_nat m') 3 ltac:(lia)).
  lia.
Qed.

Lemma twelfths_restless_4 : restless twelfths 4.
Proof.
  intros c. exists 3%nat. rewrite !twelfths_index_4.
  pose proof (Nat.div_mod_eq c 12). pose proof (Nat.div_mod_eq (c + 3) 12).
  pose proof (Nat.mod_upper_bound c 12 ltac:(lia)).
  pose proof (Nat.mod_upper_bound (c + 3) 12 ltac:(lia)).
  apply thirds_differ; lia.
Qed.

(** * The claims *)

(** ** Identifiers of numeric questions *)

(** C1, as stated, fails: three numeric questions served within one
    millisecond, the first and the third both from the compound-interest
    template; they are different questions and carry the same
    identifier. *)
Lemma same_millisecond_ids_collide :
  exists a b c s',
    getQuestionBatch MCQ_POOL NUMERIC_TEMPLATES 1 (Some 3%Z)
      (replay same_template_twice frozen_clock) startup
    = Returns ([Numeric a; Numeric b; Numeric c], s') /\
    source_of MCQ_POOL NUMERIC_TEMPLATES (Numeric a) "num-compound-interest" /\
    source_of MCQ_POOL NUMERIC_TEMPLATES (Numeric c) "num-compound-interest" /\
    NumericQuestion.questionText a <> NumericQuestion.questionText c /\
    NumericQuestion.id a = NumericQuestion.id c.
Proof.
  pose (t := GeneratedQuestionTemplate.mk "num-compound-interest"
               "Compound interest calculation" compoundInterestGenerator).
  eexists _, _, _, _. split; [vm_compute; reflexivity |].
  split; [| split; [| split]].
  - exists t, 1700000000000%Z. split; [simpl; auto | split; reflexivity].
  - exists t, 1700000000000%Z. split; [simpl; auto | split; reflexivity].
  - simpl. discriminate.
  - reflexivity.
Qed.

(** C1 (amended): the identifier of every numeric question of a batch is
    the identifier of its template, a hyphen and the decimal time stamp
    read for it; two numeric questions of a batch that come from the same
    template have the same identifier exactly when their time stamps are
    equal, so they are distinct exactly when the clock moved between
    them. *)
Theorem numeric_id_template_and_stamp
    pool templates budget count h s qs s' :
  getQuestionBatch pool templates budget count h s = Returns (qs, s') ->
  exists trace,
    Calls pool templates budget h s trace s' /\ map fst trace = qs /\
    (forall n st, In (Numeric n, st) trace ->
       exists t,
         In t templates /\
         lastQuestionId st = Some (GeneratedQuestionTemplate.id t) /\
         NumericQuestion.id n
         = GeneratedQuestionTemplate.id t ++ "-"
             ++ toString (now h (pred (clockCalls st)))) /\
    (forall a sa b sb,
       In (Numeric a, sa) trace -> In (Numeric b, sb) trace ->
       lastQuestionId sa = lastQuestionId sb ->
       (NumericQuestion.id a = NumericQuestion.id b <->
        now h (pred (clockCalls sa)) = now h (pred (clockCalls sb)))).
Proof.
  intros H. apply getQuestionBatch_Calls in H.
  destruct H as (trace & Hc & -> & _).
  assert (Hid : forall n st, In (Numeric n, st) trace ->
            exists t,
              In t templates /\
              lastQuestionId st = Some (GeneratedQuestionTemplate.id t) /\
              NumericQuestion.id n
              = GeneratedQuestionTemplate.id t ++ "-"
                  ++ toString (now h (pred (clockCalls st)))).
  { intros n st Hin.
    destruct (Calls_each _ _ _ _ _ _ _ Hc _ _ Hin) as (s0 & Hq).
    apply getNextQuestion_returns in Hq.
    destruct Hq as [(m & Hm & _)
                   | (t & g & s1 & s2 & Hn & Ht & _ & Hl & Hk & _)];
      [discriminate |].
    inversion Hn; subst n. exists t. rewrite Hk. simpl. auto. }
  exists trace. repeat split; auto.
  - intros E.
    destruct (Hid _ _ H) as (ta & _ & La & Ia).
    destruct (Hid _ _ H0) as (tb & _ & Lb & Ib).
    assert (Et : GeneratedQuestionTemplate.id ta
                 = GeneratedQuestionTemplate.id tb) by congruence.
    rewrite Ia, Ib, Et in E. apply stamped_id_inj in E. exact E.
  - intros E.
    destruct (Hid _ _ H) as (ta & _ & La & Ia).
    destruct (Hid _ _ H0) as (tb & _ & Lb & Ib).
    assert (Et : GeneratedQuestionTemplate.id ta
                 = GeneratedQuestionTemplate.id tb) by congruence.
    rewrite Ia, Ib, Et, E. reflexivity.
Qed.

Lemma numeric_id_template_and_stamp_on_twelfths :
  getQuestionBatch MCQ_POOL NUMERIC_TEMPLATES 2 (Some 10%Z) twelfths startup
  = Returns twelfths_batch /\
  exists trace,
    Calls MCQ_POOL NUMERIC_TEMPLATES 2 twelfths startup trace
      (snd twelfths_batch) /\
    map fst trace = fst twelfths_batch /\
    (forall n st, In (Numeric n, st) trace ->
       exists t,
         In t NUMERIC_TEMPLATES /\
         lastQuestionId st = Some (GeneratedQuestionTemplate.id t) /\
         NumericQuestion.id n
         = GeneratedQuestionTemplate.id t ++ "-"
             ++ toString (now twelfths (pred (clockCalls st)))) /\
    (forall a sa b sb,
       In (Numeric a, sa) trace -> In (Numeric b, sb) trace ->
       lastQuestionId sa = lastQuestionId sb ->
       (NumericQuestion.id a = NumericQuestion.id b <->
        now twelfths (pred (clockCalls sa))
        = now twelfths (pred (clockCalls sb)))).
Proof.
  split; [vm_compute; reflexivity |].
  apply (numeric_id_template_and_stamp MCQ_POOL NUMERIC_TEMPLATES 2
           (Some 10%Z) twelfths startup).
  vm_compute; reflexivity.
Defined.

(** ** No immediate repeat *)

(** C2: in every batch, the store left by each call names the catalog
    entry of the question served (pool-entry or template identifier),
    and whenever the catalog of the question at position [i + 1] has
    more than one entry, that identifier differs from the one at
    position [i]. *)
Theorem adjacent_sources_differ pool templates budget count h s qs s' :
  getQuestionBatch pool templates budget count h s = Returns (qs, s') ->
  exists trace,
    Calls pool templates budget h s trace s' /\ map fst trace = qs /\
    (forall q st, In (q, st) trace ->
       exists sid,
         lastQuestionId st = Some sid /\ source_of pool templates q sid) /\
    (forall i q1 s1 q2 s2,
       nth_error trace i = Some (q1, s1) ->
       nth_error trace (S i) = Some (q2, s2) ->
       (1 < catalog_size pool templates q2)%nat ->
       lastQuestionId s1 <> lastQuestionId s2).
Proof.
  intros H. apply getQuestionBatch_Calls in H.
  destruct H as (trace & Hc & -> & _).
  exists trace. split; [exact Hc |]. split; [reflexivity |]. split.
  - intros q st Hin.
    destruct (Calls_each _ _ _ _ _ _ _ Hc _ _ Hin) as (s0 & Hq).
    apply getNextQuestion_source in Hq.
    destruct Hq as (sid & Hl & Hs & _). eauto.
  - intros i q1 s1 q2 s2 H1 H2 Hsize.
    pose proof (Calls_consecutive _ _ _ _ _ _ _ Hc _ _ _ _ _ H1 H2) as Hq.
    apply getNextQuestion_source in Hq.
    destruct Hq as (sid & Hl & _ & Hne). rewrite Hl. auto.
Qed.

Lemma adjacent_sources_differ_on_twelfths :
  getQuestionBatch MCQ_POOL NUMERIC_TEMPLATES 2 None twelfths startup
  = Returns twelfths_batch /\
  exists trace,
    Calls MCQ_POOL NUMERIC_TEMPLATES 2 twelfths startup trace
      (snd twelfths_batch) /\
    map fst trace = fst twelfths_batch /\
    (forall q st, In (q, st) trace ->
       exists sid,
         lastQuestionId st = Some sid /\
         source_of MCQ_POOL NUMERIC_TEMPLATES q sid) /\
    (forall i q1 s1 q2 s2,
       nth_error trace i = Some (q1, s1) ->
       nth_error trace (S i) = Some (q2, s2) ->
       (1 < catalog_size MCQ_POOL NUMERIC_TEMPLATES q2)%nat ->
       lastQuestionId s1 <> lastQuestionId s2).
Proof.
  split; [vm_compute; reflexivity |].
  apply (adjacent_sources_differ MCQ_POOL NUMERIC_TEMPLATES 2 None
           twelfths startup).
  vm_compute; reflexivity.
Defined.

(** ** The batch producer *)

(** C5: with [0 <= n], on a host whose random values lie in the unit
    interval and whose drawn indices never settle, [getQuestionBatch(n)]
    returns; what it returns has exactly [n] questions, which are the
    results of [n] consecutive calls of [getNextQuestion], in order; a
    larger retry budget returns the same; a count of zero gives the
    empty list and leaves the store alone; an omitted count means 10. *)
Theorem batch_returns_count_questions h s (n : Z) :
  (0 <= n)%Z ->
  unit_interval h ->
  restless h (Z.of_nat (length MCQ_POOL)) ->
  restless h (Z.of_nat (length NUMERIC_TEMPLATES)) ->
  (exists budget qs s',
      getQuestionBatch MCQ_POOL NUMERIC_TEMPLATES budget (Some n) h s
      = Returns (qs, s') /\ length qs = Z.to_nat n) /\
  (forall budget qs s',
      getQuestionBatch MCQ_POOL NUMERIC_TEMPLATES budget (Some n) h s
      = Returns (qs, s') ->
      length qs = Z.to_nat n /\
      (exists trace,
          Calls MCQ_POOL NUMERIC_TEMPLATES budget h s trace s' /\
          map fst trace = qs) /\
      (forall budget', (budget <= budget')%nat ->
          getQuestionBatch MCQ_POOL NUMERIC_TEMPLATES budget' (Some n) h s
          = Returns (qs, s'))) /\
  (forall budget,
      getQuestionBatch MCQ_POOL NUMERIC_TEMPLATES budget (Some 0%Z) h s
      = Returns ([], s)) /\
  (forall budget,
      getQuestionBatch MCQ_POOL NUMERIC_TEMPLATES budget None h s
      = getQuestionBatch MCQ_POOL NUMERIC_TEMPLATES budget (Some 10%Z) h s).
Proof.
  intros Hn Hu Hp Ht. split; [| split; [| split]].
  - destruct (Calls_total MCQ_POOL NUMERIC_TEMPLATES h (Z.to_nat n) Hu)
      with (s := s) as (budget & trace & s' & Hc & Hlen).
    + discriminate.
    + discriminate.
    + apply restless_escapes; [apply MCQ_POOL_ids_distinct | exact Hp].
    + apply restless_escapes;
        [apply NUMERIC_TEMPLATES_ids_distinct | exact Ht].
    + apply shipped_generators_return.
    + exists budget, (map fst trace), s'. split.
      * apply getQuestionBatch_Calls. exists trace. auto.
      * rewrite length_map. exact Hlen.
  - intros budget qs s' H. split; [| split].
    + apply getQuestionBatch_Calls in H.
      destruct H as (trace & _ & -> & Hlen).
      rewrite length_map. exact Hlen.
    + apply getQuestionBatch_Calls in H.
      destruct H as (trace & Hc & -> & _). eauto.
    + intros budget' Hle. eapply getQuestionBatch_mono; eauto.
  - reflexivity.
  - reflexivity.
Qed.

Lemma batch_returns_count_questions_on_twelfths :
  (exists budget qs s',
      getQuestionBatch MCQ_POOL NUMERIC_TEMPLATES budget (Some 7%Z)
        twelfths startup
      = Returns (qs, s') /\ length qs = 7%nat) /\
  (forall budget qs s',
      getQuestionBatch MCQ_POOL NUMERIC_TEMPLATES budget (Some 7%Z)
        twelfths startup
      = Returns (qs, s') ->
      length qs = 7%nat /\
      (exists trace,
          Calls MCQ_POOL NUMERIC_TEMPLATES budget twelfths startup trace s' /\
          map fst trace = qs) /\
      (forall budget', (budget <= budget')%nat ->
          getQuestionBatch MCQ_POOL NUMERIC_TEMPLATES budget' (Some 7%Z)
            twelfths startup
          = Returns (qs, s'))) /\
  (forall budget,
      getQuestionBatch MCQ_POOL NUMERIC_TEMPLATES budget (Some 0%Z)
        twelfths startup
      = Returns ([], startup)) /\
  (forall budget,
      getQuestionBatch MCQ_POOL NUMERIC_TEMPLATES budget None
        twelfths startup
      = getQuestionBatch MCQ_POOL NUMERIC_TEMPLATES budget (Some 10%Z)
          twelfths startup).
Proof.
  apply (batch_returns_count_questions twelfths startup 7).
  - lia.
  - exact twelfths_unit_interval.
  - exact twelfths_restless_12.
  - exact twelfths_restless_4.
Defined.

(** C8, as stated, fails: a negative count raises nothing; the call
    returns the empty list. *)
Lemma negative_count_does_not_throw :
  getQuestionBatch MCQ_POOL NUMERIC_TEMPLATES 1 (Some (-1)%Z)
    twelfths startup
  = Returns ([], startup) /\
  forall err,
    getQuestionBatch MCQ_POOL NUMERIC_TEMPLATES 1 (Some (-1)%Z)
      twelfths startup
    <> Throws err.
Proof. split; [reflexivity | intros err; discriminate]. Qed.

(** C8 (amended): a call of [getQuestionBatch] with a negative count
    raises no error: it returns the empty list, as for a count of zero,
    without calling [getNextQuestion] and without touching the store. *)
Theorem negative_count_returns_empty pool templates budget count h s :
  (count < 0)%Z ->
  getQuestionBatch pool templates budget (Some count) h s = Returns ([], s).
Proof.
  intros Hneg. unfold getQuestionBatch.
  destruct count as [| p | p]; try lia. reflexivity.
Qed.

Lemma negative_count_returns_empty_at_minus_three :
  (-3 < 0)%Z /\
  getQuestionBatch MCQ_POOL NUMERIC_TEMPLATES 1 (Some (-3)%Z)
    twelfths (mkStore (Some "mcq-4") 5 2)
  = Returns ([], mkStore (Some "mcq-4") 5 2).
Proof.
  split; [lia |].
  apply (negative_count_returns_empty MCQ_POOL NUMERIC_TEMPLATES 1 (-3)
           twelfths (mkStore (Some "mcq-4") 5 2)).
  lia.
Defined.

(** ** Termination on single-entry catalogs *)

(** C9: with one pool entry and one template, each retry loop leaves
    after exactly one draw, whatever [lastQuestionId] holds, and
    [getNextQuestion] returns (the generator of the template being one
    that returns). *)
Theorem single_entry_catalogs_terminate
    (p : MCQQuestion.t) (t : GeneratedQuestionTemplate.t) budget h s :
  unit_interval h ->
  (forall s1, exists g s2,
      GeneratedQuestionTemplate.generator t h s1 = Returns (g, s2)) ->
  reroll MCQQuestion.id [p] (S budget) h s = Returns (p, drew s) /\
  reroll GeneratedQuestionTemplate.id [t] (S budget) h s
  = Returns (t, drew s) /\
  exists q s', getNextQuestion [p] [t] (S budget) h s = Returns (q, s').
Proof.
  intros Hu Hg. split; [| split].
  - apply reroll_single; [reflexivity | exact Hu].
  - apply reroll_single; [reflexivity | exact Hu].
  - destruct (Qle_bool (6 # 10) (random h (randomCalls s))) eqn:Hq.
    + rewrite (getNextQuestion_numeric _ _ _ _ _ Hq).
      rewrite (reroll_single _ _ t budget h (drew s) eq_refl Hu).
      destruct (Hg (drew (drew s))) as (g & s2 & ->). eauto.
    + rewrite (getNextQuestion_mcq _ _ _ _ _ Hq).
      rewrite (reroll_single _ _ p budget h (drew s) eq_refl Hu). eauto.
Qed.

Lemma single_entry_catalogs_terminate_on_twelfths :
  let p := MCQQuestion.mk "mcq-1"
             "If interest rates rise, what typically happens to bond prices?"
             ["They increase"; "They decrease"; "They stay the same";
              "They become volatile"] 1 in
  let t := GeneratedQuestionTemplate.mk "num-rule-of-72"
             "Rule of 72 estimation" ruleOf72Generator in
  let s := mkStore (Some "num-rule-of-72") 8 0 in
  reroll MCQQuestion.id [p] 1 twelfths s = Returns (p, drew s) /\
  reroll GeneratedQuestionTemplate.id [t] 1 twelfths s
  = Returns (t, drew s) /\
  exists q s', getNextQuestion [p] [t] 1 twelfths s = Returns (q, s').
Proof.
  intros p t s.
  apply (single_entry_catalogs_terminate p t 0 twelfths s).
  - exact twelfths_unit_interval.
  - intros s1. eexists. eexists. reflexivity.
Defined.

(** ** Tolerance *)

(** C10: every generator of the shipped template set returns, and with
    a tolerance that is present; so for every numeric question served
    over the shipped templates the tolerance is the one its generator
    reported, never the one-percent fallback. *)
Theorem shipped_tolerance_is_the_generators
    pool budget h s (n : NumericQuestion.t) s' :
  getNextQuestion pool NUMERIC_TEMPLATES budget h s
  = Returns (Numeric n, s') ->
  Forall (fun t => forall h0 s0, exists g s1 tol,
              GeneratedQuestionTemplate.generator t h0 s0 = Returns (g, s1) /\
              Gen.tolerance g = Some tol)
         NUMERIC_TEMPLATES /\
  exists t g s1 s2,
    In t NUMERIC_TEMPLATES /\
    GeneratedQuestionTemplate.generator t h s1 = Returns (g, s2) /\
    n = resolved t g (now h (clockCalls s2)) /\
    Gen.tolerance g = Some (NumericQuestion.tolerance n).
Proof.
  assert (Hall : Forall (fun t => forall h0 s0, exists g s1 tol,
              GeneratedQuestionTemplate.generator t h0 s0 = Returns (g, s1) /\
              Gen.tolerance g = Some tol)
         NUMERIC_TEMPLATES).
  { repeat constructor; intros h0 s0;
      cbv [GeneratedQuestionTemplate.generator compoundInterestGenerator
           simpleInterestGenerator ruleOf72Generator
           futureValueAnnuityGenerator bind randInt Math_random ret];
      eexists _, _, _; split; reflexivity. }
  intros H. split; [exact Hall |].
  apply getNextQuestion_returns in H.
  destruct H as [(m & Hm & _) | (t & g & s1 & s2 & Hn & Ht & Hg & _)];
    [discriminate |].
  inversion Hn; subst n. exists t, g, s1, s2.
  repeat split; auto.
  rewrite Forall_forall in Hall.
  destruct (Hall t Ht h s1) as (g' & s2' & tol & Hg' & Htol).
  rewrite Hg in Hg'. inversion Hg'; subst g' s2'.
  unfold resolved. simpl. rewrite Htol. reflexivity.
Qed.

Lemma shipped_tolerance_is_the_generators_on_twelfths :
  let s := mkStore (Some "mcq-8") 8 0 in
  exists n' s',
    getNextQuestion MCQ_POOL NUMERIC_TEMPLATES 1 twelfths s
    = Returns (Numeric n', s') /\
    exists t g s1 s2,
      In t NUMERIC_TEMPLATES /\
      GeneratedQuestionTemplate.generator t twelfths s1 = Returns (g, s2) /\
      n' = resolved t g (now twelfths (clockCalls s2)) /\
      Gen.tolerance g = Some (NumericQuestion.tolerance n').
Proof.
  intros s. eexists _, _. split; [vm_compute; reflexivity |].
  eapply (shipped_tolerance_is_the_generators MCQ_POOL 1 twelfths s).
  vm_compute; reflexivity.
Defined.

(** C4: every numeric question served over the shipped catalogs, by one
    call or inside a batch, has a tolerance that is not negative; it is
    1 when the question comes from the Rule of 72 template and one
    hundredth of the correct answer when it comes from any other. *)
Theorem numeric_tolerance_rule h :
  unit_interval h ->
  (forall budget s n s',
      getNextQuestion MCQ_POOL NUMERIC_TEMPLATES budget h s
      = Returns (Numeric n, s') ->
      exists sid,
        lastQuestionId s' = Some sid /\
        source_of MCQ_POOL NUMERIC_TEMPLATES (Numeric n) sid /\
        tolerance_rule n sid) /\
  (forall budget count s qs s',
      getQuestionBatch MCQ_POOL NUMERIC_TEMPLATES budget count h s
      = Returns (qs, s') ->
      exists trace,
        Calls MCQ_POOL NUMERIC_TEMPLATES budget h s trace s' /\
        map fst trace = qs /\
        forall n st, In (Numeric n, st) trace ->
          exists sid,
            lastQuestionId st = Some sid /\
            source_of MCQ_POOL NUMERIC_TEMPLATES (Numeric n) sid /\
            tolerance_rule n sid).
Proof.
  intros Hu.
  assert (Hone : forall budget s n s',
      getNextQuestion MCQ_POOL NUMERIC_TEMPLATES budget h s
      = Returns (Numeric n, s') ->
      exists sid,
        lastQuestionId s' = Some sid /\
        source_of MCQ_POOL NUMERIC_TEMPLATES (Numeric n) sid /\
        tolerance_rule n sid).
  { intros budget s n s' H. apply getNextQuestion_returns in H.
    destruct H as [(m & Hm & _) | (t & g & s1 & s2 & Hn & Ht & Hg & Hl & _)];
      [discriminate |].
    inversion Hn; subst n.
    destruct (shipped_tolerance h t s1 g s2 Hu Ht Hg)
      as (tol & Htol & Hpos & H72 & Hpct).
    exists (GeneratedQuestionTemplate.id t). split; [exact Hl |]. split.
    - exists t, (now h (clockCalls s2)). auto.
    - unfold tolerance_rule, resolved. simpl. rewrite Htol. auto. }
  split; [exact Hone |].
  intros budget count s qs s' H. apply getQuestionBatch_Calls in H.
  destruct H as (trace & Hc & -> & _).
  exists trace. split; [exact Hc |]. split; [reflexivity |].
  intros n st Hin.
  destruct (Calls_each _ _ _ _ _ _ _ Hc _ _ Hin) as (s0 & Hq).
  eapply Hone; eauto.
Qed.

Lemma numeric_tolerance_rule_on_twelfths :
  unit_interval twelfths /\
  getQuestionBatch MCQ_POOL NUMERIC_TEMPLATES 2 (Some 10%Z) twelfths startup
  = Returns twelfths_batch /\
  exists trace,
    Calls MCQ_POOL NUMERIC_TEMPLATES 2 twelfths startup trace
      (snd twelfths_batch) /\
    map fst trace = fst twelfths_batch /\
    forall n st, In (Numeric n, st) trace ->
      exists sid,
        lastQuestionId st = Some sid /\
        source_of MCQ_POOL NUMERIC_TEMPLATES (Numeric n) sid /\
        tolerance_rule n sid.
Proof.
  split; [exact twelfths_unit_interval |].
  split; [vm_compute; reflexivity |].
  destruct (numeric_tolerance_rule twelfths twelfths_unit_interval)
    as [_ Hbatch].
  apply (Hbatch 2%nat (Some 10%Z) startup).
  vm_compute; reflexivity.
Defined.

(** ** The formulas *)

(** C6: for every rate from 2 to 12 the Rule of 72 result has as its
    answer [72 / rate] rounded to the nearest integer (the rounding to
    two decimals that comes first changes nothing: the answer lies
    strictly within one half of [72 / rate]), and a tolerance of 1; the
    computation in double precision gives the same integer. *)
Theorem ruleOf72_rounds_to_nearest (rate : Z) :
  (2 <= rate <= 12)%Z ->
  Gen.correctAnswer (ruleOf72 rate)
  = inject_Z (Math_round (72 / inject_Z rate)) /\
  (Qabs (72 / inject_Z rate - Gen.correctAnswer (ruleOf72 rate)) < 1 # 2)%Q /\
  Gen.tolerance (ruleOf72 rate) = Some 1%Q /\
  Binary64.ruleOf72Answer rate
  = Binary64.ofZ (Math_round (72 / inject_Z rate)) /\
  Binary64.ruleOf72Answer rate
  = Binary64.Math_round (72 / Binary64.ofZ rate).
Proof.
  intros Hr.
  assert (rate = 2 \/ rate = 3 \/ rate = 4 \/ rate = 5 \/ rate = 6 \/
          rate = 7 \/ rate = 8 \/ rate = 9 \/ rate = 10 \/ rate = 11 \/
          rate = 12)%Z as Hcases by lia.
  repeat (destruct Hcases as [-> | Hcases]); try subst rate;
    (split; [vm_compute; reflexivity |
     split; [reflexivity |
     split; [reflexivity |
     split; vm_compute; reflexivity]]]).
Qed.

Lemma ruleOf72_rounds_to_nearest_at_eight :
  (2 <= 8 <= 12)%Z /\
  Gen.correctAnswer (ruleOf72 8) = inject_Z (Math_round (72 / inject_Z 8)) /\
  (Qabs (72 / inject_Z 8 - Gen.correctAnswer (ruleOf72 8)) < 1 # 2)%Q /\
  Gen.tolerance (ruleOf72 8) = Some 1%Q /\
  Binary64.ruleOf72Answer 8 = Binary64.ofZ (Math_round (72 / inject_Z 8)) /\
  Binary64.ruleOf72Answer 8
  = Binary64.Math_round (72 / Binary64.ofZ 8).
Proof.
  split; [lia |]. apply (ruleOf72_rounds_to_nearest 8). lia.
Defined.

(** C7: on the three test vectors the answers are 1210.00 for compound
    interest (1000 at 10% over 2 years), 1150.00 for simple interest
    (1000 at 5% over 3 years) and 1268.25 for the future value of
    monthly savings (100 a month at 12% over 1 year, that is a monthly
    rate of 0.01 over 12 months); in exact arithmetic, and in double
    precision with any [Math.pow] that is at most one unit in the last
    place away from the correctly rounded power. *)
Theorem formula_test_vectors (pow : float -> float -> float) :
  Binary64.within_one_ulp
    (pow (1 + Binary64.ofZ 10 / 100)%float (Binary64.ofZ 2))
    (Binary64.power_nearest (1 + Binary64.ofZ 10 / 100)%float 2) ->
  Binary64.within_one_ulp
    (pow (1 + Binary64.ofZ 12 / 100 / 12)%float (Binary64.ofZ 1 * 12)%float)
    (Binary64.power_nearest (1 + Binary64.ofZ 12 / 100 / 12)%float 12) ->
  ((Gen.correctAnswer (compoundInterest 1000 10 2) == 1210)%Q /\
   (Gen.correctAnswer (simpleInterest 1000 5 3) == 1150)%Q /\
   (Gen.correctAnswer (futureValueAnnuity 100 12 1) == 126825 # 100)%Q /\
   (Gen.correctAnswer (futureValueAnnuity 100 12 1)
    == round2 (100 * (((1 + (1 # 100)) ^ 12 - 1) / (1 # 100))))%Q) /\
  (Binary64.compoundAnswer pow 1000 10 2 = 1210%float /\
   Binary64.simpleTotal 1000 5 3 = 1150%float /\
   Binary64.annuityAnswer pow 100 12 1 = 1268.25%float).
Proof.
  intros Hc Ha. split.
  - repeat split; vm_compute; reflexivity.
  - split; [| split].
    + unfold Binary64.compoundAnswer.
      destruct Hc as [-> | [-> | ->]]; vm_compute; reflexivity.
    + vm_compute; reflexivity.
    + unfold Binary64.annuityAnswer. cbv zeta.
      destruct Ha as [-> | [-> | ->]]; vm_compute; reflexivity.
Qed.

Lemma formula_test_vectors_with_nearest_pow :
  ((Gen.correctAnswer (compoundInterest 1000 10 2) == 1210)%Q /\
   (Gen.correctAnswer (simpleInterest 1000 5 3) == 1150)%Q /\
   (Gen.correctAnswer (futureValueAnnuity 100 12 1) == 126825 # 100)%Q /\
   (Gen.correctAnswer (futureValueAnnuity 100 12 1)
    == round2 (100 * (((1 + (1 # 100)) ^ 12 - 1) / (1 # 100))))%Q) /\
  (Binary64.compoundAnswer Binary64.Math_pow_nearest 1000 10 2
   = 1210%float /\
   Binary64.simpleTotal 1000 5 3 = 1150%float /\
   Binary64.annuityAnswer Binary64.Math_pow_nearest 100 12 1
   = 1268.25%float).
Proof.
  apply (formula_test_vectors Binary64.Math_pow_nearest).
  - right; left. vm_compute; reflexivity.
  - right; left. vm_compute; reflexivity.
Defined.

(** ** Question text *)

(** Below one thousand the plain digits and the grouped digits are the
    same text, so the annuity text is right for every monthly amount
    but the largest. *)
Lemma annuity_amount_grouped_below_thousand (k : Z) :
  (1 <= k <= 9)%Z -> toString (k * 100) = toLocaleString (k * 100).
Proof.
  intros Hk.
  assert (k = 1 \/ k = 2 \/ k = 3 \/ k = 4 \/ k = 5 \/ k = 6 \/ k = 7 \/
          k = 8 \/ k = 9)%Z as Hcases by lia.
  repeat (destruct Hcases as [-> | Hcases]); try subst k; reflexivity.
Qed.

(** C3 does not hold of the code: when [getNextQuestion] picks the
    annuity template and its generator draws the largest monthly amount,
    the text shows the amount as 1000, without the thousands separator
    that [toLocaleString] gives it, and that the two interest templates
    do put into their texts. *)
Theorem annuity_amount_lacks_separator :
  exists n s',
    getNextQuestion MCQ_POOL NUMERIC_TEMPLATES 1
      (replay largest_monthly frozen_clock) startup
    = Returns (Numeric n, s') /\
    NumericQuestion.id n = "num-future-value-annuity-1700000000000" /\
    NumericQuestion.questionText n
    = "You save $1000 per month for 2 years at 4% annual interest "
        ++ "(compounded monthly). What is the total future value?" /\
    toLocaleString 1000 = "1,000" /\
    index 0 ("$" ++ toLocaleString 1000) (NumericQuestion.questionText n)
    = None /\
    index 0 ("$" ++ toLocaleString 1000)
      (Gen.questionText (compoundInterest 1000 4 2)) = Some 11%nat /\
    index 0 ("$" ++ toLocaleString 1000)
      (Gen.questionText (simpleInterest 1000 4 2)) = Some 12%nat.
Proof.
  eexists _, _. split; [vm_compute; reflexivity |].
  repeat split; vm_compute; reflexivity.
Qed.


(** * Further properties of the service *)

(** ** [randInt] and [round2] *)

Lemma Qfloor_unique (q : Q) (z : Z) :
  (inject_Z z <= q)%Q -> (q < inject_Z (z + 1))%Q -> Qfloor q = z.
Proof.
  intros Hlo Hhi.
  assert (z <= Qfloor q)%Z.
  { rewrite <- (Qfloor_Z z). apply Qfloor_resp_le. exact Hlo. }
  assert (Qfloor q < z + 1)%Z.
  { rewrite Zlt_Qlt. eapply Qle_lt_trans; [apply Qfloor_le | exact Hhi]. }
  lia.
Qed.

(** X1: [randInt(min, max)] with [min <= max] reads one random value and
    returns an integer of the inclusive range from [min] to [max]; and
    every integer of that range is returned for some random value of
    the unit interval. *)
Theorem randInt_inclusive_range h s (min max : Z) :
  unit_interval h -> (min <= max)%Z ->
  (exists v,
      randInt min max h s = Returns (v, drew s) /\ (min <= v <= max)%Z) /\
  (forall v, (min <= v <= max)%Z ->
     exists u, (0 <= u)%Q /\ (u < 1)%Q /\
       forall h' s', random h' (randomCalls s') = u ->
         randInt min max h' s' = Returns (v, drew s')).
Proof.
  intros Hu Hle. split; [apply randInt_range; assumption |].
  intros v Hv.
  assert (Hn : (0 < inject_Z (max - min + 1))%Q).
  { change 0%Q with (inject_Z 0). rewrite <- Zlt_Qlt. lia. }
  exists (inject_Z (v - min) / inject_Z (max - min + 1))%Q.
  split; [| split].
  - apply Qle_shift_div_l; [exact Hn |].
    setoid_replace (0 * inject_Z (max - min + 1))%Q with (inject_Z 0) by ring.
    rewrite <- Zle_Qle. lia.
  - apply Qlt_shift_div_r; [exact Hn |].
    setoid_replace (1 * inject_Z (max - min + 1))%Q
      with (inject_Z (max - min + 1)) by ring.
    rewrite <- Zlt_Qlt. lia.
  - intros h' s' Hr. rewrite randInt_run, Hr.
    assert (E : (inject_Z (v - min) / inject_Z (max - min + 1)
                 * inject_Z (max - min + 1) == inject_Z (v - min))%Q).
    { field. intros H0. rewrite H0 in Hn. discriminate. }
    rewrite E, Qfloor_Z. do 2 f_equal. lia.
Qed.

Lemma randInt_inclusive_range_on_twelfths :
  (exists v,
      randInt 1 50 twelfths startup = Returns (v, drew startup) /\
      (1 <= v <= 50)%Z) /\
  (forall v, (1 <= v <= 50)%Z ->
     exists u, (0 <= u)%Q /\ (u < 1)%Q /\
       forall h' s', random h' (randomCalls s') = u ->
         randInt 1 50 h' s' = Returns (v, drew s')).
Proof.
  apply (randInt_inclusive_range twelfths startup 1 50).
  - exact twelfths_unit_interval.
  - lia.
Defined.


Lemma round2_cents (x : Q) : (round2 x == Math_round (x * 100) # 100)%Q.
Proof. unfold round2. rewrite (Qmake_Qdiv _ 100). reflexivity. Qed.

Lemma round2_of_cents (c : Z) : (round2 (c # 100) == c # 100)%Q.
Proof.
  rewrite round2_cents.
  replace (Math_round ((c # 100) * 100)) with c; [reflexivity |].
  symmetry. unfold Math_round. apply Qfloor_unique.
  - setoid_replace ((c # 100) * 100 + (1 # 2))%Q
      with (inject_Z c + (1 # 2))%Q
      by (rewrite (Qmake_Qdiv c 100); field).
    rewrite <- (Qplus_0_r (inject_Z c)) at 1.
    apply Qplus_le_r. discriminate.
  - setoid_replace ((c # 100) * 100 + (1 # 2))%Q
      with (inject_Z c + (1 # 2))%Q
      by (rewrite (Qmake_Qdiv c 100); field).
    rewrite inject_Z_plus. apply Qplus_lt_r. reflexivity.
Qed.


Lemma round2_monotone (x y : Q) : (x <= y)%Q -> (round2 x <= round2 y)%Q.
Proof.
  intros Hxy. unfold round2.
  apply Qmult_le_compat_r; [| discriminate].
  rewrite <- Zle_Qle. unfold Math_round. apply Qfloor_resp_le.
  apply Qplus_le_l. apply Qmult_le_compat_r; [exact Hxy | discriminate].
Qed.



(** ** The shipped generators *)

Lemma rate_fraction_nonneg (rate : Z) (d : Q) :
  (0 <= rate)%Z -> (0 < d)%Q -> (0 <= inject_Z rate / d)%Q.
Proof.
  intros Hr Hd. apply Qle_shift_div_l; [exact Hd |].
  setoid_replace (0 * d)%Q with 0%Q by ring.
  apply inject_Z_nonneg; exact Hr.
Qed.

Lemma round2_at_least (z : Z) (x : Q) :
  (inject_Z z <= x)%Q -> (inject_Z z <= round2 x)%Q.
Proof.
  intros H.
  assert (E : (inject_Z z == round2 ((z * 100) # 100))%Q).
  { rewrite round2_of_cents.
    rewrite (Qmake_Qdiv (z * 100) 100), inject_Z_mult. field. }
  rewrite E. apply round2_monotone.
  rewrite (Qmake_Qdiv (z * 100) 100), inject_Z_mult.
  setoid_replace (inject_Z z * inject_Z 100 / inject_Z 100)%Q
    with (inject_Z z) by field.
  exact H.
Qed.

Lemma compoundInterest_at_least_principal principal rate years :
  (0 <= principal)%Z -> (0 <= rate)%Z -> (0 <= years)%Z ->
  (inject_Z principal
   <= Gen.correctAnswer (compoundInterest principal rate years))%Q.
Proof.
  intros Hp Hr Hy. simpl. apply round2_at_least.
  assert (H1 : (1 <= (1 + inject_Z rate / 100) ^ years)%Q).
  { apply Qpower_1_le; [| exact Hy].
    pose proof (rate_fraction_nonneg rate 100 Hr ltac:(reflexivity)). lra. }
  pose proof (inject_Z_nonneg principal Hp) as Hq.
  pose proof (Qmult_le_compat_r _ _ _ H1 Hq) as Hm.
  rewrite Qmult_comm. lra.
Qed.

Lemma simpleInterest_at_least_principal principal rate years :
  (0 <= principal)%Z -> (0 <= rate)%Z -> (0 <= years)%Z ->
  (inject_Z principal
   <= Gen.correctAnswer (simpleInterest principal rate years))%Q.
Proof.
  intros Hp Hr Hy. simpl.
  assert (0 <= round2 (inject_Z principal * (inject_Z rate / 100)
                       * inject_Z years))%Q.
  { apply round2_nonneg.
    apply Qmult_le_0_compat; [| apply inject_Z_nonneg; exact Hy].
    apply Qmult_le_0_compat; [apply inject_Z_nonneg; exact Hp |].
    apply rate_fraction_nonneg; [exact Hr | reflexivity]. }
  lra.
Qed.

Lemma futureValueAnnuity_at_least_monthly monthly rate years :
  (0 <= monthly)%Z -> (0 < rate)%Z -> (1 <= years)%Z ->
  (inject_Z monthly
   <= Gen.correctAnswer (futureValueAnnuity monthly rate years))%Q.
Proof.
  intros Hm Hr Hy. simpl. apply round2_at_least.
  set (r := (inject_Z rate / 100 / 12)%Q).
  assert (Hrq : (0 < r)%Q).
  { unfold r. apply Qlt_shift_div_l; [reflexivity |].
    setoid_replace (0 * 12)%Q with 0%Q by reflexivity.
    apply Qlt_shift_div_l; [reflexivity |].
    setoid_replace (0 * 100)%Q with (inject_Z 0) by reflexivity.
    rewrite <- Zlt_Qlt. exact Hr. }
  assert (Hpow : (1 + r <= (1 + r) ^ (years * 12))%Q).
  { rewrite <- (Qpower_1_r (1 + r)) at 1.
    apply Qpower_le_compat_l; [lia | lra]. }
  assert (Hone : (1 <= ((1 + r) ^ (years * 12) - 1) / r)%Q).
  { apply Qle_shift_div_l; [exact Hrq | lra]. }
  pose proof (inject_Z_nonneg monthly Hm) as Hq.
  pose proof (Qmult_le_compat_r _ _ _ Hone Hq) as Hmul.
  rewrite Qmult_comm. lra.
Qed.

Lemma ruleOf72_between (rate : Z) :
  (2 <= rate <= 12)%Z ->
  (6 <= Gen.correctAnswer (ruleOf72 rate))%Q /\
  (Gen.correctAnswer (ruleOf72 rate) <= 36)%Q.
Proof.
  intros Hr.
  assert (rate = 2 \/ rate = 3 \/ rate = 4 \/ rate = 5 \/ rate = 6 \/
          rate = 7 \/ rate = 8 \/ rate = 9 \/ rate = 10 \/ rate = 11 \/
          rate = 12)%Z as Hcases by lia.
  repeat (destruct Hcases as [-> | Hcases]); try subst rate;
    split; vm_compute; discriminate.
Qed.

(** X3: on a host whose random values lie in the unit interval, every
    generator of the shipped template set returns; it reads three random
    values (one for the Rule of 72), never the clock, and leaves
    [lastQuestionId] alone; the tolerance it reports is present,
    strictly positive and strictly below the correct answer, so the
    correct answer is positive and zero is never inside the accepted
    range. *)
Theorem shipped_generator_footprint h t s :
  unit_interval h -> In t NUMERIC_TEMPLATES ->
  exists g s' tol,
    GeneratedQuestionTemplate.generator t h s = Returns (g, s') /\
    lastQuestionId s' = lastQuestionId s /\
    clockCalls s' = clockCalls s /\
    randomCalls s'
    = (randomCalls s
       + (if String.eqb (GeneratedQuestionTemplate.id t) "num-rule-of-72"
          then 1 else 3))%nat /\
    Gen.tolerance g = Some tol /\
    (0 < tol)%Q /\ (tol < Gen.correctAnswer g)%Q.
Proof.
  intros Hu Hin. simpl in Hin.
  destruct Hin as [<- | [<- | [<- | [<- | []]]]]; simpl.
  - destruct (compoundInterestGenerator_run h s Hu)
      as (k & r & y & Hk & Hr & Hy & E).
    pose proof (compoundInterest_at_least_principal (k * 1000) r y
                  ltac:(lia) ltac:(lia) ltac:(lia)) as Hb.
    assert (Hk' : (inject_Z 1000 <= inject_Z (k * 1000))%Q)
      by (rewrite <- Zle_Qle; lia).
    change (inject_Z 1000) with 1000%Q in Hk'.
    eexists _, _, _. split; [exact E |].
    repeat (split; [simpl; first [reflexivity | lia] |]).
    simpl Gen.correctAnswer in *. split; lra.
  - destruct (simpleInterestGenerator_run h s Hu)
      as (k & r & y & Hk & Hr & Hy & E).
    pose proof (simpleInterest_at_least_principal (k * 1000) r y
                  ltac:(lia) ltac:(lia) ltac:(lia)) as Hb.
    assert (Hk' : (inject_Z 1000 <= inject_Z (k * 1000))%Q)
      by (rewrite <- Zle_Qle; lia).
    change (inject_Z 1000) with 1000%Q in Hk'.
    eexists _, _, _. split; [exact E |].
    repeat (split; [simpl; first [reflexivity | lia] |]).
    simpl Gen.correctAnswer in *. split; lra.
  - destruct (ruleOf72Generator_run h s Hu) as (r & Hr & E).
    destruct (ruleOf72_between r Hr) as [Hlo Hhi].
    eexists _, _, _. split; [exact E |].
    split; [reflexivity |]. split; [reflexivity |].
    split; [simpl; lia |]. split; [reflexivity |].
    split; [reflexivity | lra].
  - destruct (futureValueAnnuityGenerator_run h s Hu)
      as (k & r & y & Hk & Hr & Hy & E).
    pose proof (futureValueAnnuity_at_least_monthly (k * 100) r y
                  ltac:(lia) ltac:(lia) ltac:(lia)) as Hb.
    assert (Hk' : (inject_Z 100 <= inject_Z (k * 100))%Q)
      by (rewrite <- Zle_Qle; lia).
    change (inject_Z 100) with 100%Q in Hk'.
    eexists _, _, _. split; [exact E |].
    repeat (split; [simpl; first [reflexivity | lia] |]).
    simpl Gen.correctAnswer in *. split; lra.
Qed.

Lemma shipped_generator_footprint_on_twelfths :
  exists g s' tol,
    ruleOf72Generator twelfths startup = Returns (g, s') /\
    lastQuestionId s' = lastQuestionId startup /\
    clockCalls s' = clockCalls startup /\
    randomCalls s' = (randomCalls startup + 1)%nat /\
    Gen.tolerance g = Some tol /\
    (0 < tol)%Q /\ (tol < Gen.correctAnswer g)%Q.
Proof.
  apply (shipped_generator_footprint twelfths
           (GeneratedQuestionTemplate.mk "num-rule-of-72"
              "Rule of 72 estimation" ruleOf72Generator) startup).
  - exact twelfths_unit_interval.
  - simpl. auto.
Defined.

(** ** The retry loop and the empty catalog *)

Lemma drawn_index_empty h i : drawn_index h 0 i = 0%Z.
Proof.
  unfold drawn_index. change (0 - 1 - 0 + 1)%Z with 0%Z.
  setoid_replace (random h i * inject_Z 0)%Q with (inject_Z 0) by ring.
  rewrite Qfloor_Z. reflexivity.
Qed.

Lemma reroll_empty {A} (ident : A -> string) budget h s :
  reroll ident [] (S budget) h s
  = Throws "TypeError: cannot read property 'id' of undefined".
Proof.
  rewrite reroll_step. simpl length. change (Z.of_nat 0) with 0%Z.
  rewrite drawn_index_empty. reflexivity.
Qed.

(** X4: when the catalog the category draw selects is empty,
    [getNextQuestion] throws a TypeError, reading [id] of the missing
    entry, and so does every [getQuestionBatch] with a count of at least
    one; nothing is returned and no partial batch is produced. *)
Theorem empty_catalog_throws pool templates budget h s (count : Z) :
  (pool = [] /\ Qle_bool (6 # 10) (random h (randomCalls s)) = false) \/
  (templates = [] /\ Qle_bool (6 # 10) (random h (randomCalls s)) = true) ->
  (1 <= count)%Z ->
  getNextQuestion pool templates (S budget) h s
  = Throws "TypeError: cannot read property 'id' of undefined" /\
  getQuestionBatch pool templates (S budget) (Some count) h s
  = Throws "TypeError: cannot read property 'id' of undefined".
Proof.
  intros Hempty Hcount.
  assert (Hnext : getNextQuestion pool templates (S budget) h s
                  = Throws "TypeError: cannot read property 'id' of undefined").
  { destruct Hempty as [[-> Hq] | [-> Hq]].
    - rewrite (getNextQuestion_mcq _ _ _ _ _ Hq), reroll_empty. reflexivity.
    - rewrite (getNextQuestion_numeric _ _ _ _ _ Hq), reroll_empty.
      reflexivity. }
  split; [exact Hnext |].
  unfold getQuestionBatch, requested. cbv zeta.
  destruct (Z.to_nat count) as [| steps] eqn:Es; [lia |].
  simpl. destruct (Z.ltb_spec 0 count); [| lia].
  unfold bind at 1. rewrite Hnext. reflexivity.
Qed.

Lemma empty_catalog_throws_on_twelfths :
  getNextQuestion [] [] 1 twelfths startup
  = Throws "TypeError: cannot read property 'id' of undefined" /\
  getQuestionBatch [] [] 1 (Some 10%Z) twelfths startup
  = Throws "TypeError: cannot read property 'id' of undefined".
Proof.
  apply (empty_catalog_throws [] [] 0 twelfths startup 10).
  - left. split; reflexivity.
  - lia.
Defined.

Section RerollOrder.

Context {A : Type}.
Variable ident : A -> string.
Variable catalog : list A.

Let size : Z := Z.of_nat (length catalog).

(** X5: what the retry loop returns is the entry of the first draw that
    is not a repeat: every draw before it picked an entry whose
    identifier is [lastQuestionId], the catalog having more than one
    entry, and the loop read exactly as many random values as it made
    draws. *)
Theorem reroll_returns_first_fresh budget : forall h s x s',
  reroll ident catalog budget h s = Returns (x, s') ->
  exists k,
    s' = Nat.iter (S k) drew s /\
    at_index catalog (drawn_index h size (randomCalls s + k)) = Some x /\
    ~ (lastQuestionId s = Some (ident x) /\ (1 < length catalog)%nat) /\
    forall j, (j < k)%nat ->
      (1 < length catalog)%nat /\
      exists y,
        at_index catalog (drawn_index h size (randomCalls s + j)) = Some y /\
        lastQuestionId s = Some (ident y).
Proof.
  induction budget as [| budget IH]; intros h s x s' H; [discriminate |].
  rewrite reroll_step in H. fold size in H.
  destruct (at_index catalog (drawn_index h size (randomCalls s)))
    as [y |] eqn:Ey; [| discriminate].
  destruct (same_id (ident y) (lastQuestionId s)) eqn:Eid;
    destruct (Nat.ltb_spec 1 (length catalog)) as [Hlen | Hlen];
    simpl in H.
  - apply IH in H. destruct H as (k & Hs & Hx & Hfresh & Hbefore).
    exists (S k). simpl in Hx, Hfresh, Hbefore.
    split; [| split; [| split]].
    + rewrite Hs. simpl. rewrite <- !Nat.iter_succ_r. reflexivity.
    + rewrite <- Hx. do 2 f_equal. lia.
    + exact Hfresh.
    + intros j Hj. destruct j as [| j].
      * split; [exact Hlen |]. exists y. rewrite Nat.add_0_r.
        split; [exact Ey |]. apply same_id_true. exact Eid.
      * destruct (Hbefore j ltac:(lia)) as (Hl & z & Hz & Hlast).
        split; [exact Hl |]. exists z. split; [| exact Hlast].
        rewrite <- Hz. do 2 f_equal. lia.
  - inversion H; subst. exists 0%nat. rewrite Nat.add_0_r.
    split; [reflexivity |]. split; [exact Ey |]. split; [lia |].
    intros j Hj. lia.
  - inversion H; subst. exists 0%nat. rewrite Nat.add_0_r.
    split; [reflexivity |]. split; [exact Ey |]. split.
    + intros [Hl _]. apply same_id_true in Hl. congruence.
    + intros j Hj. lia.
  - inversion H; subst. exists 0%nat. rewrite Nat.add_0_r.
    split; [reflexivity |]. split; [exact Ey |]. split; [lia |].
    intros j Hj. lia.
Qed.

End RerollOrder.

Lemma reroll_returns_first_fresh_on_twelfths :
  let s := mkStore (Some "mcq-1") 0 0 in
  exists x s' k,
    reroll MCQQuestion.id MCQ_POOL 3 twelfths s = Returns (x, s') /\
    s' = Nat.iter (S k) drew s /\
    at_index MCQ_POOL
      (drawn_index twelfths (Z.of_nat (length MCQ_POOL)) (randomCalls s + k))
    = Some x /\
    ~ (lastQuestionId s = Some (MCQQuestion.id x) /\
       (1 < length MCQ_POOL)%nat) /\
    forall j, (j < k)%nat ->
      (1 < length MCQ_POOL)%nat /\
      exists y,
        at_index MCQ_POOL
          (drawn_index twelfths (Z.of_nat (length MCQ_POOL))
             (randomCalls s + j)) = Some y /\
        lastQuestionId s = Some (MCQQuestion.id y).
Proof.
  intros s. eexists _, _.
  assert (E : reroll MCQQuestion.id MCQ_POOL 3 twelfths s
              = Returns (nth 1 MCQ_POOL (MCQQuestion.mk "" "" [] 0),
                         Nat.iter 2 drew s))
    by (vm_compute; reflexivity).
  destruct (reroll_returns_first_fresh MCQQuestion.id MCQ_POOL 3
              twelfths s _ _ E) as (k & Hk).
  exists k. split; [exact E | exact Hk].
Defined.

(** ** What one call serves *)

Lemma MCQ_POOL_entries_valid :
  Forall (fun m =>
            length (MCQQuestion.options m) = 4%nat /\
            (0 <= MCQQuestion.correctIndex m < 4)%Z /\
            exists answer,
              at_index (MCQQuestion.options m) (MCQQuestion.correctIndex m)
              = Some answer)
         MCQ_POOL.
Proof.
  repeat constructor; simpl; try lia; eexists; reflexivity.
Qed.

(** The shipped generators only draw: the clock cursor and
    [lastQuestionId] are as before. *)
Lemma shipped_generator_store h t s g s' :
  In t NUMERIC_TEMPLATES ->
  GeneratedQuestionTemplate.generator t h s = Returns (g, s') ->
  clockCalls s' = clockCalls s /\ lastQuestionId s' = lastQuestionId s.
Proof.
  intros Hin Hg. simpl in Hin.
  destruct Hin as [<- | [<- | [<- | [<- | []]]]];
    cbv [GeneratedQuestionTemplate.generator compoundInterestGenerator
         simpleInterestGenerator ruleOf72Generator
         futureValueAnnuityGenerator bind randInt Math_random ret] in Hg;
    inversion Hg; subst; split; reflexivity.
Qed.

(** X6: over the shipped catalogs, a multiple-choice question is served
    exactly on a category draw below 0.6: it is an entry of the pool as
    it stands there, with four options and a correct index that points
    at one of them, and the clock is not read for it. A numeric question
    is served exactly on a category draw of at least 0.6, and the clock
    is read once for it: its identifier carries the reading that was
    next when the call began. *)
Theorem served_question_by_category budget h s q s' :
  getNextQuestion MCQ_POOL NUMERIC_TEMPLATES budget h s = Returns (q, s') ->
  match q with
  | Mcq m =>
      Qle_bool (6 # 10) (random h (randomCalls s)) = false /\
      In m MCQ_POOL /\
      length (MCQQuestion.options m) = 4%nat /\
      (0 <= MCQQuestion.correctIndex m < 4)%Z /\
      (exists answer,
          at_index (MCQQuestion.options m) (MCQQuestion.correctIndex m)
          = Some answer) /\
      clockCalls s' = clockCalls s /\
      lastQuestionId s' = Some (MCQQuestion.id m)
  | Numeric n =>
      Qle_bool (6 # 10) (random h (randomCalls s)) = true /\
      clockCalls s' = S (clockCalls s) /\
      exists t,
        In t NUMERIC_TEMPLATES /\
        lastQuestionId s' = Some (GeneratedQuestionTemplate.id t) /\
        NumericQuestion.id n
        = GeneratedQuestionTemplate.id t ++ "-"
            ++ toString (now h (clockCalls s))
  end.
Proof.
  intros H.
  destruct (Qle_bool (6 # 10) (random h (randomCalls s))) eqn:Hq.
  - rewrite (getNextQuestion_numeric _ _ _ _ _ Hq) in H.
    destruct (reroll GeneratedQuestionTemplate.id NUMERIC_TEMPLATES budget h
                (drew s)) as [[t s1] | e |] eqn:Er; try discriminate.
    destruct (GeneratedQuestionTemplate.generator t h s1)
      as [[g s2] | e |] eqn:Eg; try discriminate.
    inversion H; subst; clear H.
    apply reroll_returns in Er. destruct Er as (Hin & _ & Hc & _ & _).
    destruct (shipped_generator_store h t s1 g s2 Hin Eg) as [Hc2 _].
    simpl in Hc. cbn [clockCalls lastQuestionId].
    split; [reflexivity |]. split; [congruence |].
    exists t. split; [exact Hin |]. split; [reflexivity |].
    unfold resolved. cbn [NumericQuestion.id]. congruence.
  - rewrite (getNextQuestion_mcq _ _ _ _ _ Hq) in H.
    destruct (reroll MCQQuestion.id MCQ_POOL budget h (drew s))
      as [[m s1] | e |] eqn:Er; try discriminate.
    inversion H; subst; clear H.
    apply reroll_returns in Er. destruct Er as (Hin & _ & Hc & _ & _).
    pose proof (proj1 (Forall_forall _ _) MCQ_POOL_entries_valid m Hin)
      as (Hlen & Hidx & Hans).
    simpl in Hc. cbn [clockCalls lastQuestionId]. auto 10.
Qed.

Lemma served_question_by_category_on_twelfths :
  let s := mkStore (Some "mcq-8") 8 0 in
  exists n s',
    getNextQuestion MCQ_POOL NUMERIC_TEMPLATES 1 twelfths s
    = Returns (Numeric n, s') /\
    Qle_bool (6 # 10) (random twelfths (randomCalls s)) = true /\
    clockCalls s' = S (clockCalls s) /\
    exists t,
      In t NUMERIC_TEMPLATES /\
      lastQuestionId s' = Some (GeneratedQuestionTemplate.id t) /\
      NumericQuestion.id n
      = GeneratedQuestionTemplate.id t ++ "-"
          ++ toString (now twelfths (clockCalls s)).
Proof.
  intros s. eexists _, _. split; [vm_compute; reflexivity |].
  eapply (served_question_by_category 1 twelfths s (Numeric _)).
  vm_compute; reflexivity.
Defined.

(** ** Batches *)

Section BatchFacts.

Variable pool : list MCQQuestion.t.
Variable templates : list GeneratedQuestionTemplate.t.

Lemma pushLoop_callsN budget steps : forall count i acc h s,
  steps = Z.to_nat (count - i) ->
  pushLoop pool templates budget steps count i acc h s
  = and_then (callsN pool templates budget steps h s)
      (fun rest s' => Returns ((acc ++ rest)%list, s')).
Proof.
  induction steps as [| steps IH]; intros count i acc h s Hsteps; simpl.
  - destruct (Z.ltb_spec i count); [lia |].
    unfold ret. rewrite List.app_nil_r. reflexivity.
  - destruct (Z.ltb_spec i count); [| lia].
    unfold bind.
    destruct (getNextQuestion pool templates budget h s)
      as [[q s1] | e |]; try reflexivity.
    rewrite (IH count (i + 1)%Z) by lia.
    destruct (callsN pool templates budget steps h s1)
      as [[rest s2] | e |]; try reflexivity.
    simpl. unfold ret. rewrite <- List.app_assoc. reflexivity.
Qed.

Lemma getQuestionBatch_callsN budget count h s :
  getQuestionBatch pool templates budget count h s
  = callsN pool templates budget (Z.to_nat (requested count)) h s.
Proof.
  unfold getQuestionBatch. cbv zeta.
  rewrite pushLoop_callsN by (f_equal; lia).
  destruct (callsN _ _ _ _ _ _) as [[rest s1] | e |]; reflexivity.
Qed.

Lemma callsN_add budget m n h s :
  callsN pool templates budget (m + n) h s
  = and_then (callsN pool templates budget m h s)
      (fun first s1 =>
         and_then (callsN pool templates budget n h s1)
           (fun second s2 => Returns ((first ++ second)%list, s2))).
Proof.
  revert s. induction m as [| m IH]; intros s; simpl.
  - destruct (callsN pool templates budget n h s) as [[second s1] | e |];
      reflexivity.
  - unfold bind.
    destruct (getNextQuestion pool templates budget h s)
      as [[q s1] | e |]; try reflexivity.
    rewrite IH.
    destruct (callsN pool templates budget m h s1) as [[first s2] | e |];
      try reflexivity.
    simpl.
    destruct (callsN pool templates budget n h s2) as [[second s3] | e |];
      reflexivity.
Qed.

(** X7: a batch of [m + n] is a batch of [m] followed by a batch of [n]
    run from the store the first one left, the two lists appended: the
    same questions, the same final store, and the same failure if one
    of the calls fails. *)
Theorem batch_splits budget (m n : Z) h s :
  (0 <= m)%Z -> (0 <= n)%Z ->
  getQuestionBatch pool templates budget (Some (m + n)%Z) h s
  = (first <- getQuestionBatch pool templates budget (Some m) ;;
     second <- getQuestionBatch pool templates budget (Some n) ;;
     ret (first ++ second)%list) h s.
Proof.
  intros Hm Hn. unfold bind, ret.
  rewrite !getQuestionBatch_callsN. simpl requested.
  rewrite Z2Nat.inj_add by assumption. rewrite callsN_add.
  destruct (callsN pool templates budget (Z.to_nat m) h s)
    as [[first s1] | e |]; try reflexivity.
  simpl. rewrite getQuestionBatch_callsN. simpl requested.
  destruct (callsN pool templates budget (Z.to_nat n) h s1)
    as [[second s2] | e |]; reflexivity.
Qed.

End BatchFacts.

Lemma batch_splits_on_twelfths :
  getQuestionBatch MCQ_POOL NUMERIC_TEMPLATES 2 (Some (4 + 6)%Z)
    twelfths startup
  = (first <- getQuestionBatch MCQ_POOL NUMERIC_TEMPLATES 2 (Some 4%Z) ;;
     second <- getQuestionBatch MCQ_POOL NUMERIC_TEMPLATES 2 (Some 6%Z) ;;
     ret (first ++ second)%list) twelfths startup.
Proof.
  apply (batch_splits MCQ_POOL NUMERIC_TEMPLATES 2 4 6 twelfths startup);
    lia.
Defined.

(** * The home feed *)

Lemma Calls_app pool templates budget h s t1 s1 t2 s2 :
  Calls pool templates budget h s t1 s1 ->
  Calls pool templates budget h s1 t2 s2 ->
  Calls pool templates budget h s (t1 ++ t2) s2.
Proof.
  intros H1 H2. induction H1; simpl; [exact H2 |].
  econstructor; eauto.
Qed.

Lemma scroll_Calls budget h loads : forall screen s screen' s',
  HomeScreen.isLoadingMore screen = false ->
  HomeScreen.scroll budget loads screen h s = Returns (screen', s') ->
  exists trace,
    Calls MCQ_POOL NUMERIC_TEMPLATES budget h s trace s' /\
    HomeScreen.questions screen'
    = (HomeScreen.questions screen ++ map fst trace)%list /\
    length trace = (10 * loads)%nat /\
    HomeScreen.isLoadingMore screen' = false.
Proof.
  induction loads as [| loads IH]; intros screen s screen' s' Hflag H.
  - inversion H; subst. exists []. simpl. rewrite List.app_nil_r.
    repeat split; [constructor | exact Hflag].
  - simpl in H. apply bind_returns in H.
    destruct H as (mid & s1 & Hload & Hrest).
    unfold HomeScreen.handleEndReached in Hload. rewrite Hflag in Hload.
    apply bind_returns in Hload.
    destruct Hload as (batch & s1' & Hbatch & Hret).
    inversion Hret; subst; clear Hret.
    apply getQuestionBatch_Calls in Hbatch.
    destruct Hbatch as (t1 & Hc1 & -> & Hlen1).
    apply IH in Hrest; [| reflexivity].
    destruct Hrest as (t2 & Hc2 & Hq & Hlen2 & Hflag').
    exists (t1 ++ t2)%list. split; [eapply Calls_app; eauto |].
    split; [| split; [| exact Hflag']].
    + rewrite Hq. simpl. rewrite map_app, List.app_assoc. reflexivity.
    + rewrite length_app, Hlen1, Hlen2. simpl. lia.
Qed.

(** X8: after the screen is mounted and the end of the list is reached
    [loads] times, the feed holds [10 * (loads + 1)] questions, the
    loading flag is down, and the feed is one run of consecutive
    [getNextQuestion] calls: no two neighbours in it, also across the
    seam of two batches, come from the same pool entry or template. *)
Theorem feed_has_no_adjacent_repeat budget loads h s screen s' :
  (first <- HomeScreen.mount budget ;;
   HomeScreen.scroll budget loads first) h s = Returns (screen, s') ->
  length (HomeScreen.questions screen) = (10 * (loads + 1))%nat /\
  HomeScreen.isLoadingMore screen = false /\
  exists trace,
    Calls MCQ_POOL NUMERIC_TEMPLATES budget h s trace s' /\
    map fst trace = HomeScreen.questions screen /\
    (forall q st, In (q, st) trace ->
       exists sid,
         lastQuestionId st = Some sid /\
         source_of MCQ_POOL NUMERIC_TEMPLATES q sid) /\
    (forall i q1 st1 q2 st2,
       nth_error trace i = Some (q1, st1) ->
       nth_error trace (S i) = Some (q2, st2) ->
       lastQuestionId st1 <> lastQuestionId st2).
Proof.
  intros H. apply bind_returns in H.
  destruct H as (first & s1 & Hmount & Hscroll).
  unfold HomeScreen.mount in Hmount. apply bind_returns in Hmount.
  destruct Hmount as (batch & s1' & Hbatch & Hret).
  inversion Hret; subst; clear Hret.
  apply getQuestionBatch_Calls in Hbatch.
  destruct Hbatch as (t1 & Hc1 & -> & Hlen1).
  apply scroll_Calls in Hscroll; [| reflexivity].
  destruct Hscroll as (t2 & Hc2 & Hq & Hlen2 & Hflag).
  simpl in Hq.
  assert (Hc : Calls MCQ_POOL NUMERIC_TEMPLATES budget h s (t1 ++ t2) s')
    by (eapply Calls_app; eauto).
  split; [| split; [exact Hflag |]].
  - rewrite Hq, length_app, !length_map, Hlen1, Hlen2. simpl. lia.
  - exists (t1 ++ t2)%list. split; [exact Hc |].
    split; [rewrite Hq, map_app; reflexivity |]. split.
    + intros q st Hin.
      destruct (Calls_each _ _ _ _ _ _ _ Hc _ _ Hin) as (s0 & Hcall).
      apply getNextQuestion_source in Hcall.
      destruct Hcall as (sid & Hl & Hs & _). eauto.
    + intros i q1 st1 q2 st2 H1 H2.
      pose proof (Calls_consecutive _ _ _ _ _ _ _ Hc _ _ _ _ _ H1 H2)
        as Hcall.
      apply getNextQuestion_source in Hcall.
      destruct Hcall as (sid & Hl & _ & Hne). rewrite Hl.
      apply Hne. destruct q2; simpl; lia.
Qed.

Lemma feed_has_no_adjacent_repeat_on_twelfths :
  exists screen s',
    (first <- HomeScreen.mount 2 ;;
     HomeScreen.scroll 2 1 first) twelfths startup = Returns (screen, s') /\
    length (HomeScreen.questions screen) = 20%nat /\
    HomeScreen.isLoadingMore screen = false /\
    exists trace,
      Calls MCQ_POOL NUMERIC_TEMPLATES 2 twelfths startup trace s' /\
      map fst trace = HomeScreen.questions screen /\
      (forall q st, In (q, st) trace ->
         exists sid,
           lastQuestionId st = Some sid /\
           source_of MCQ_POOL NUMERIC_TEMPLATES q sid) /\
      (forall i q1 st1 q2 st2,
         nth_error trace i = Some (q1, st1) ->
         nth_error trace (S i) = Some (q2, st2) ->
         lastQuestionId st1 <> lastQuestionId st2).
Proof.
  eexists _, _. split; [vm_compute; reflexivity |].
  apply (feed_has_no_adjacent_repeat 2 1 twelfths startup).
  vm_compute; reflexivity.
Defined.

(** ** Keys of the list items *)

Lemma string_of_uint_digits (d : Decimal.uint) :
  all_digits (NilEmpty.string_of_uint d) = true.
Proof. induction d; simpl; auto. Qed.

Lemma toString_digits (n : Z) : (0 <= n)%Z -> all_digits (toString n) = true.
Proof.
  intros Hn. unfold toString.
  destruct n as [| p | p]; [reflexivity | | lia].
  simpl. unfold NilZero.string_of_uint.
  destruct (Pos.to_uint p); try reflexivity; apply string_of_uint_digits.
Qed.

Lemma all_digits_no_dash (a b : string) :
  all_digits (a ++ String "-" b) = false.
Proof.
  induction a as [| c a IH]; simpl; [reflexivity |].
  rewrite IH. apply andb_false_r.
Qed.

(** A text that ends in a hyphen and a run of digits is cut at that
    hyphen in one way only. *)
Lemma hyphen_digits_inj (a b d1 d2 : string) :
  all_digits d1 = true -> all_digits d2 = true ->
  a ++ "-" ++ d1 = b ++ "-" ++ d2 -> a = b /\ d1 = d2.
Proof.
  intros H1 H2. revert b.
  induction a as [| c a IH]; intros [| c' b] H; simpl in H.
  - inversion H. auto.
  - inversion H; subst. rewrite all_digits_no_dash in H1. discriminate.
  - inversion H; subst. rewrite all_digits_no_dash in H2. discriminate.
  - inversion H; subst. destruct (IH b) as [-> ->]; auto.
Qed.

Lemma keyExtractor_index a b (i j : nat) :
  HomeScreen.keyExtractor a i = HomeScreen.keyExtractor b j -> i = j.
Proof.
  unfold HomeScreen.keyExtractor. intros H.
  apply hyphen_digits_inj in H; try (apply toString_digits; lia).
  destruct H as [_ H]. apply toString_inj in H. lia.
Qed.

Lemma keys_from (items : list ResolvedQuestion) : forall start,
  NoDup (map (fun entry => HomeScreen.keyExtractor (snd entry) (fst entry))
             (combine (seq start (length items)) items)).
Proof.
  induction items as [| item items IH]; intros start; simpl;
    constructor; [| apply IH].
  intros Hin. apply in_map_iff in Hin.
  destruct Hin as ([j other] & Hkey & Hin). simpl in Hkey.
  apply keyExtractor_index in Hkey. subst j.
  apply in_combine_l in Hin. apply in_seq in Hin. lia.
Qed.

(** X9: the keys the feed gives its items are pairwise distinct,
    whatever the items are: two positions never get the same key, even
    when the questions at them carry the same identifier. *)
Theorem feed_keys_are_distinct (items : list ResolvedQuestion) :
  NoDup (HomeScreen.keys items) /\
  length (HomeScreen.keys items) = length items /\
  forall a b (i j : nat),
    i <> j -> HomeScreen.keyExtractor a i <> HomeScreen.keyExtractor b j.
Proof.
  split; [apply keys_from |]. split.
  - unfold HomeScreen.keys.
    rewrite length_map, length_combine, length_seq. lia.
  - intros a b i j Hij H. apply Hij. eapply keyExtractor_index; eauto.
Qed.

Lemma feed_keys_are_distinct_on_collision :
  map HomeScreen.item_id collision_feed
  = ["num-compound-interest-1700000000000";
     "num-simple-interest-1700000000000";
     "num-compound-interest-1700000000000"] /\
  NoDup (HomeScreen.keys collision_feed) /\
  HomeScreen.keys collision_feed
  = ["num-compound-interest-1700000000000-0";
     "num-simple-interest-1700000000000-1";
     "num-compound-interest-1700000000000-2"].
Proof.
  split; [reflexivity |]. split; [| reflexivity].
  apply (feed_keys_are_distinct collision_feed).
Defined.

(** * The numeric card *)

(** X10: a numeric card is submitted at most once: [handleSubmit] on a
    card that is already submitted changes nothing, whatever text the
    input holds by then and whatever the question, so the first verdict
    stays; and submitting twice in a row is the same as submitting
    once. *)
Theorem numeric_card_submits_once (question : NumericQuestion.t)
    (card : NumericCard.t) :
  NumericCard.handleSubmit question (NumericCard.handleSubmit question card)
  = NumericCard.handleSubmit question card /\
  (NumericCard.isSubmitted card = true ->
   forall text other,
     NumericCard.handleSubmit other (NumericCard.setInputValue text card)
     = NumericCard.setInputValue text card /\
     NumericCard.isCorrect
       (NumericCard.handleSubmit other (NumericCard.setInputValue text card))
     = NumericCard.isCorrect card) /\
  (NumericCard.isSubmitted (NumericCard.handleSubmit question card) = false ->
   NumericCard.handleSubmit question card = card).
Proof.
  split; [| split].
  - assert (Hcases :
      NumericCard.handleSubmit question card = card \/
      NumericCard.isSubmitted (NumericCard.handleSubmit question card)
      = true).
    { unfold NumericCard.handleSubmit.
      destruct (NumericCard.isSubmitted card); [left; reflexivity |].
      cbv zeta.
      destruct (isNaN (parseFloat (strip (NumericCard.inputValue card))));
        [left; reflexivity | right; reflexivity]. }
    destruct Hcases as [E | E].
    + rewrite E. exact E.
    + unfold NumericCard.handleSubmit at 1. rewrite E. reflexivity.
  - intros Hs text other. unfold NumericCard.handleSubmit.
    simpl. rewrite Hs. split; reflexivity.
  - unfold NumericCard.handleSubmit.
    destruct (NumericCard.isSubmitted card) eqn:Es; [reflexivity |].
    cbv zeta.
    destruct (isNaN (parseFloat (strip (NumericCard.inputValue card))));
      [reflexivity | discriminate].
Qed.

Lemma numeric_card_submits_once_example :
  let question := NumericQuestion.mk "num-rule-of-72-1" "" 9 1 in
  let card := NumericCard.mk "9" true true in
  NumericCard.isSubmitted card = true /\
  NumericCard.handleSubmit question (NumericCard.setInputValue "40" card)
  = NumericCard.setInputValue "40" card /\
  NumericCard.isCorrect
    (NumericCard.handleSubmit question (NumericCard.setInputValue "40" card))
  = true.
Proof.
  intros question card. split; [reflexivity |].
  destruct (numeric_card_submits_once question card) as (_ & Hfinal & _).
  apply (Hfinal eq_refl "40" question).
Defined.

(** ** Input that is not a number *)

Lemma strip_no_number s : no_number s = true -> no_number (strip s) = true.
Proof.
  induction s as [| c s IH]; simpl; [reflexivity |].
  intros H. apply andb_prop in H. destruct H as [Hc Hs].
  destruct ((c =? "$")%char || (c =? ",")%char || is_whitespace c);
    [auto |].
  simpl. rewrite Hc. auto.
Qed.

Lemma skip_whitespace_no_number s :
  no_number s = true -> no_number (skip_whitespace s) = true.
Proof.
  induction s as [| c s IH]; simpl; [reflexivity |].
  intros H. destruct (is_whitespace c).
  - apply andb_prop in H. destruct H as [_ Hs]. auto.
  - exact H.
Qed.

Lemma read_sign_no_number s :
  no_number s = true -> no_number (snd (read_sign s)) = true.
Proof.
  destruct s as [| c s]; simpl; [reflexivity |].
  intros H. pose proof H as H'. apply andb_prop in H'. destruct H' as [_ Hs].
  destruct (c =? "-")%char; [exact Hs |].
  destruct (c =? "+")%char; [exact Hs | exact H].
Qed.

Lemma span_digits_no_number s :
  no_number s = true -> span_digits s = (EmptyString, s).
Proof.
  destruct s as [| c s]; simpl; [reflexivity |].
  intros H. apply andb_prop in H. destruct H as [Hc _].
  apply andb_prop in Hc. destruct Hc as [Hd _].
  apply negb_true_iff in Hd. rewrite Hd. reflexivity.
Qed.

Lemma parseFloat_no_number s : no_number s = true -> parseFloat s = NaN.
Proof.
  intros H. unfold parseFloat.
  pose proof (read_sign_no_number _ (skip_whitespace_no_number _ H)) as Hb.
  destruct (read_sign (skip_whitespace s)) as [negative body].
  simpl in Hb.
  assert (Hp : prefix "Infinity" body = false).
  { destruct body as [| c body]; [reflexivity |].
    simpl in Hb. apply andb_prop in Hb. destruct Hb as [Hc _].
    apply andb_prop in Hc. destruct Hc as [_ Hi].
    apply negb_true_iff in Hi. apply Ascii.eqb_neq in Hi.
    change (prefix "Infinity" (String c body))
      with (if Ascii.ascii_dec "I" c then prefix "nfinity" body else false).
    destruct (Ascii.ascii_dec "I" c) as [E | Hne]; [congruence |].
    reflexivity. }
  rewrite Hp, (span_digits_no_number _ Hb).
  destruct body as [| c body]; [reflexivity |].
  simpl in Hb. apply andb_prop in Hb. destruct Hb as [_ Hrest].
  destruct (c =? ".")%char; [| reflexivity].
  rewrite (span_digits_no_number _ Hrest). reflexivity.
Qed.

(** X11: a submission whose text has no digit in it (and is not the
    word Infinity) is ignored: the card stays as it was, not submitted
    and without verdict; this covers the empty input, a lone dollar
    sign, a lone point or sign, and words. *)
Theorem numeric_card_ignores_text_without_digits
    (question : NumericQuestion.t) (card : NumericCard.t) :
  no_number (NumericCard.inputValue card) = true ->
  NumericCard.handleSubmit question card = card.
Proof.
  intros H. unfold NumericCard.handleSubmit.
  destruct (NumericCard.isSubmitted card); [reflexivity |].
  cbv zeta. rewrite (parseFloat_no_number _ (strip_no_number _ H)).
  reflexivity.
Qed.

Lemma numeric_card_ignores_text_without_digits_example :
  let question := NumericQuestion.mk "num-rule-of-72-1" "" 9 1 in
  Forall (fun text =>
            no_number text = true /\
            NumericCard.handleSubmit question
              (NumericCard.setInputValue text NumericCard.initial)
            = NumericCard.setInputValue text NumericCard.initial)
         [""; "$"; "."; "-"; "+."; "nine"; "$ ,"; "e"].
Proof.
  intros question.
  repeat (constructor;
          [split; [reflexivity |
                   apply (numeric_card_ignores_text_without_digits question);
                   reflexivity] |]).
  constructor.
Defined.

(** ** Reading a decimal text *)





Lemma length_append (a b : string) :
  String.length (a ++ b) = (String.length a + String.length b)%nat.
Proof. induction a as [| c a IH]; simpl; [reflexivity | rewrite IH; reflexivity]. Qed.






(** ** The displayed answer, typed back *)


















(** ** The answer the card shows is one it accepts *)







(** ** The tolerance hint *)

(** X15: for every numeric question served over the shipped catalogs
    from one of the three templates with a percentage tolerance, the
    hint the card prints is 1 (one percent); the correct answer it
    divides by is never zero. *)
Theorem tolerance_hint_is_one_percent budget h s (n : NumericQuestion.t) s' :
  unit_interval h ->
  getNextQuestion MCQ_POOL NUMERIC_TEMPLATES budget h s
  = Returns (Numeric n, s') ->
  lastQuestionId s' <> Some "num-rule-of-72" ->
  (0 < NumericQuestion.correctAnswer n)%Q /\ toleranceHint n = "1".
Proof.
  intros Hu H Hnot. apply getNextQuestion_returns in H.
  destruct H as [(m & Hm & _) | (t & g & s1 & s2 & Hn & Ht & Hg & Hl & _)];
    [discriminate |].
  inversion Hn; subst n; clear Hn.
  destruct (shipped_tolerance h t s1 g s2 Hu Ht Hg)
    as (tol & Htol & Hpos & _ & Hpct).
  assert (Hid : GeneratedQuestionTemplate.id t <> "num-rule-of-72")
    by congruence.
  specialize (Hpct Hid).
  assert (Hans : (0 < Gen.correctAnswer g)%Q).
  { simpl in Ht.
    destruct Ht as [<- | [<- | [<- | [<- | []]]]]; simpl in Hg, Hid.
    - destruct (compoundInterestGenerator_run h s1 Hu)
        as (k & r & y & Hk & Hr & Hy & E).
      rewrite E in Hg. inversion Hg; subst.
      pose proof (compoundInterest_at_least_principal (k * 1000) r y
                    ltac:(lia) ltac:(lia) ltac:(lia)) as Hb.
      assert (inject_Z 1 <= inject_Z (k * 1000))%Q
        by (rewrite <- Zle_Qle; lia).
      change (inject_Z 1) with 1%Q in *. lra.
    - destruct (simpleInterestGenerator_run h s1 Hu)
        as (k & r & y & Hk & Hr & Hy & E).
      rewrite E in Hg. inversion Hg; subst.
      pose proof (simpleInterest_at_least_principal (k * 1000) r y
                    ltac:(lia) ltac:(lia) ltac:(lia)) as Hb.
      assert (inject_Z 1 <= inject_Z (k * 1000))%Q
        by (rewrite <- Zle_Qle; lia).
      change (inject_Z 1) with 1%Q in *. lra.
    - congruence.
    - destruct (futureValueAnnuityGenerator_run h s1 Hu)
        as (k & r & y & Hk & Hr & Hy & E).
      rewrite E in Hg. inversion Hg; subst.
      pose proof (futureValueAnnuity_at_least_monthly (k * 100) r y
                    ltac:(lia) ltac:(lia) ltac:(lia)) as Hb.
      assert (inject_Z 1 <= inject_Z (k * 100))%Q
        by (rewrite <- Zle_Qle; lia).
      change (inject_Z 1) with 1%Q in *. lra. }
  split; [exact Hans |].
  unfold toleranceHint, resolved. cbn [NumericQuestion.tolerance
    NumericQuestion.correctAnswer]. rewrite Htol, Hpct.
  assert (E : (Gen.correctAnswer g * (1 # 100) / Gen.correctAnswer g * 100
               == 1)%Q).
  { field. intros H0. rewrite H0 in Hans. discriminate. }
  unfold toFixed0.
  assert (Hle : Qle_bool 0
                  (Gen.correctAnswer g * (1 # 100) / Gen.correctAnswer g
                   * 100) = true).
  { apply Qle_bool_iff. rewrite E. discriminate. }
  rewrite Hle, E. reflexivity.
Qed.

Lemma tolerance_hint_is_one_percent_on_twelfths :
  let s := mkStore (Some "mcq-8") 8 0 in
  exists n s',
    getNextQuestion MCQ_POOL NUMERIC_TEMPLATES 1 twelfths s
    = Returns (Numeric n, s') /\
    (0 < NumericQuestion.correctAnswer n)%Q /\ toleranceHint n = "1".
Proof.
  intros s. eexists _, _. split; [vm_compute; reflexivity |].
  eapply (tolerance_hint_is_one_percent 1 twelfths s).
  - exact twelfths_unit_interval.
  - vm_compute; reflexivity.
  - vm_compute. discriminate.
Defined.

(** * The multiple-choice card *)

Lemma taps_answered question indices : forall card,
  MCQCard.isAnswered card = true -> MCQCard.taps question indices card = card.
Proof.
  induction indices as [| i indices IH]; intros card Hc; [reflexivity |].
  unfold MCQCard.taps in *. simpl.
  unfold MCQCard.handleSelect at 2. rewrite Hc. apply IH. exact Hc.
Qed.

(** X16: on a multiple-choice card the first option tapped is the
    answer: whatever is tapped afterwards, the selection stays the
    first one, and so does the verdict. *)
Theorem mcq_first_tap_is_final (question : MCQQuestion.t) (first : Z)
    (later : list Z) :
  MCQCard.taps question (first :: later) MCQCard.initial = Some first /\
  MCQCard.isCorrect question
    (MCQCard.taps question (first :: later) MCQCard.initial)
  = (first =? MCQQuestion.correctIndex question)%Z /\
  forall card,
    MCQCard.isAnswered card = true ->
    MCQCard.taps question later card = card.
Proof.
  assert (E : MCQCard.taps question (first :: later) MCQCard.initial
              = Some first).
  { unfold MCQCard.taps. simpl. apply (taps_answered question later).
    reflexivity. }
  split; [exact E |]. split; [rewrite E; reflexivity |].
  intros card Hc. apply taps_answered. exact Hc.
Qed.

Lemma mcq_first_tap_is_final_example :
  let question := MCQQuestion.mk "mcq-7" "What does GDP stand for?"
    ["Gross Domestic Product"; "General Domestic Pricing";
     "Growth Demand Percentage"; "Gross Demand Profit"] 0 in
  MCQCard.isAnswered (Some 2%Z) = true /\
  MCQCard.taps question [0; 1]%Z (Some 2%Z) = Some 2%Z.
Proof.
  intros question. split; [reflexivity |].
  destruct (mcq_first_tap_is_final question 2 [0; 1]%Z) as (_ & _ & H).
  apply H. reflexivity.
Defined.

(** X17: once a multiple-choice card is answered, the option at the
    correct index, and only that one, is styled as correct; an option is
    styled as incorrect exactly when it is the selected one and the
    selection is wrong; the text of an option is highlighted exactly
    when its button is styled correct or incorrect; before the answer
    every option has the default styles. *)
Theorem mcq_option_styles (question : MCQQuestion.t) (selected index : Z) :
  let card := Some selected in
  (MCQCard.getOptionStyle question card index = MCQCard.optionCorrect
   <-> index = MCQQuestion.correctIndex question) /\
  (MCQCard.getOptionStyle question card index = MCQCard.optionIncorrect
   <-> index = selected /\ selected <> MCQQuestion.correctIndex question) /\
  (MCQCard.getOptionTextStyle question card index
   = MCQCard.optionTextHighlighted
   <-> MCQCard.getOptionStyle question card index = MCQCard.optionCorrect \/
       MCQCard.getOptionStyle question card index
       = MCQCard.optionIncorrect) /\
  MCQCard.getOptionStyle question MCQCard.initial index
  = MCQCard.optionDefault /\
  MCQCard.getOptionTextStyle question MCQCard.initial index
  = MCQCard.optionTextDefault.
Proof.
  unfold MCQCard.getOptionStyle, MCQCard.getOptionTextStyle,
    MCQCard.isAnswered, MCQCard.isCorrect, MCQCard.is_selected,
    MCQCard.initial.
  cbn [negb].
  destruct (Z.eqb_spec index (MCQQuestion.correctIndex question));
    destruct (Z.eqb_spec index selected);
    destruct (Z.eqb_spec selected (MCQQuestion.correctIndex question));
    cbn [andb negb];
    repeat split; try reflexivity; try congruence; try tauto;
    try (intros H; discriminate H);
    try (intros [H | H]; discriminate H);
    try (intros [H1 H2]; congruence);
    try (intros _; auto; fail).
Qed.

(** * The account screen *)

Lemma last_cons_default {A : Type} (l : list A) : forall (a d : A),
  last l a = last (a :: l) d.
Proof.
  induction l as [| b l IH]; intros a d; [reflexivity |].
  change (last (a :: b :: l) d) with (last (b :: l) d).
  destruct l as [| c l]; [reflexivity |].
  rewrite <- (IH b a), <- (IH b d). reflexivity.
Qed.

Lemma press_keeps_draft (screen : AccountScreen.t) (p : AccountScreen.Press) :
  (AccountScreen.isEditing screen = false ->
   AccountScreen.editLevel screen = AccountScreen.experienceLevel screen) ->
  AccountScreen.isEditing (AccountScreen.press screen p) = false ->
  AccountScreen.editLevel (AccountScreen.press screen p)
  = AccountScreen.experienceLevel (AccountScreen.press screen p).
Proof.
  intros Hinv. unfold AccountScreen.press, AccountScreen.rendered.
  destruct p; destruct (AccountScreen.isEditing screen) eqn:E; simpl;
    try rewrite E; auto; discriminate.
Qed.

(** X18: on the account screen no press other than Save changes the
    saved experience level; whatever is pressed, in any order, whenever
    the editor is closed the draft equals the saved level; an editing
    session that ends with Cancel leaves the screen as it was before
    Edit, and one that ends with Save stores the level picked last. *)
Theorem account_level_editor (ps : list AccountScreen.Press)
    (picks : list AccountScreen.ExperienceLevel)
    (screen : AccountScreen.t) :
  let after := AccountScreen.presses ps AccountScreen.initial in
  (forall p, p <> AccountScreen.Save ->
     AccountScreen.experienceLevel (AccountScreen.press screen p)
     = AccountScreen.experienceLevel screen) /\
  (AccountScreen.isEditing after = false ->
   AccountScreen.editLevel after = AccountScreen.experienceLevel after) /\
  (AccountScreen.isEditing screen = false ->
   AccountScreen.editLevel screen = AccountScreen.experienceLevel screen ->
   AccountScreen.presses
     (AccountScreen.Edit :: map AccountScreen.Level picks
        ++ [AccountScreen.Cancel]) screen
   = screen /\
   AccountScreen.experienceLevel
     (AccountScreen.presses
        (AccountScreen.Edit :: map AccountScreen.Level picks
           ++ [AccountScreen.Save]) screen)
   = last picks (AccountScreen.experienceLevel screen)).
Proof.
  split; [| split].
  - intros p Hp. unfold AccountScreen.press.
    destruct (AccountScreen.rendered screen p); [| reflexivity].
    destruct p; try reflexivity. contradiction Hp; reflexivity.
  - unfold AccountScreen.presses.
    assert (Hgen : forall start,
      (AccountScreen.isEditing start = false ->
       AccountScreen.editLevel start = AccountScreen.experienceLevel start) ->
      AccountScreen.isEditing (fold_left AccountScreen.press ps start)
      = false ->
      AccountScreen.editLevel (fold_left AccountScreen.press ps start)
      = AccountScreen.experienceLevel
          (fold_left AccountScreen.press ps start)).
    { induction ps as [| p ps IH]; intros start Hinv; simpl; [exact Hinv |].
      apply IH. apply press_keeps_draft. exact Hinv. }
    apply Hgen. reflexivity.
  - intros Hidle Hdraft.
    assert (Hpicks : forall draft,
      fold_left AccountScreen.press (map AccountScreen.Level picks)
        (AccountScreen.mk (AccountScreen.experienceLevel screen) true draft)
      = AccountScreen.mk (AccountScreen.experienceLevel screen) true
          (last picks draft)).
    { induction picks as [| l picks IH]; intros draft; [reflexivity |].
      simpl map. simpl fold_left.
      unfold AccountScreen.press at 2. simpl.
      unfold AccountScreen.pickLevel. simpl. rewrite IH.
      f_equal. apply last_cons_default. }
    unfold AccountScreen.presses. simpl fold_left.
    unfold AccountScreen.press at 2 4. unfold AccountScreen.rendered.
    rewrite Hidle. cbn [negb]. unfold AccountScreen.pressEdit.
    rewrite !fold_left_app, !Hpicks. simpl. split.
    + destruct screen as [level editing draft]. simpl in *.
      subst editing draft. reflexivity.
    + reflexivity.
Qed.

Lemma account_level_editor_example :
  let screen := AccountScreen.mk AccountScreen.intermediate false
                  AccountScreen.intermediate in
  AccountScreen.presses
    (AccountScreen.Edit
       :: map AccountScreen.Level
            [AccountScreen.advanced; AccountScreen.beginner]
       ++ [AccountScreen.Cancel]) screen
  = screen /\
  AccountScreen.experienceLevel
    (AccountScreen.presses
       (AccountScreen.Edit
          :: map AccountScreen.Level
               [AccountScreen.advanced; AccountScreen.beginner]
          ++ [AccountScreen.Save]) screen)
  = AccountScreen.beginner.
Proof.
  intros screen.
  destruct (account_level_editor []
              [AccountScreen.advanced; AccountScreen.beginner] screen)
    as (_ & _ & H).
  apply H; reflexivity.
Defined.
